(** * Media uploader backend: the three route handlers of [server.js]

    The service is an Express application that forwards uploads to a
    remote media store (the Cloudinary SDK) and lists / deletes what is
    stored there.  The remote store is an external collaborator: it is
    modelled as an interface ([RemoteStore]) over an abstract store state,
    and every handler is a computation in a small state-and-exception
    monad that threads the store and keeps a log of the calls made to
    it, in the order they were issued. *)

From Stdlib Require Import List String Ascii NArith Arith Bool Lia.
From Stdlib.Strings Require Import Byte.
From Stdlib Require Import Decimal DecimalString DecimalPos DecimalN.
From Stdlib Require Import Permutation.
Import ListNotations.
Open Scope string_scope.

(** ** JavaScript numbers, as far as byte counts use them

    [file.bytes] and the running [sum] of the listing handler are
    JavaScript numbers, that is IEEE-754 doubles.  A byte count is a
    non-negative integer, so only that fragment is modelled: a finite
    value is given by the integer it denotes, and [+] rounds the exact
    sum to 53 significant bits, ties to even, overflowing to
    [Infinity]. *)
Module JsNumber.

Inductive number : Type :=
| Finite (n : N)
| Infinity.

(** [2^53], up to which every integer is a double. *)
Definition two53 : N := 9007199254740992.

(** Nearest double of a non-negative integer, ties to even. *)
Definition round53 (n : N) : N :=
  if (n <=? two53)%N then n
  else
    let k := (N.log2 n - 52)%N in
    let q := N.shiftr n k in
    let r := (n mod 2 ^ k)%N in
    let half := (2 ^ (k - 1))%N in
    let up := (half <? r)%N || ((r =? half)%N && N.odd q) in
    N.shiftl (if up then q + 1 else q)%N k.

(** The operator [+] on two numbers of this fragment. *)
Definition add (a b : number) : number :=
  match a, b with
  | Finite x, Finite y =>
      let r := round53 (x + y) in
      if (r <? 2 ^ 1024)%N then Finite r else Infinity
  | _, _ => Infinity
  end.

(** Number-to-string conversion of a non-negative integer below
    [1e21], as a template literal performs it: plain decimal digits. *)
Definition toString (n : N) : string :=
  NilEmpty.string_of_uint (N.to_uint n).

End JsNumber.
Import JsNumber.

(** ** String primitives *)

(** [String.prototype.substring(indexStart, indexEnd)]: the characters
    from the smaller index up to, not including, the larger one, both
    clamped to the length of the string. *)
Definition js_substring (s : string) (indexStart indexEnd : nat) : string :=
  let lo := Nat.min indexStart indexEnd in
  let hi := Nat.max indexStart indexEnd in
  String.substring lo (hi - lo) s.

(** [Buffer.prototype.toString("base64")]. *)
Definition base64_alphabet : string :=
  "ABCDEFGHIJKLMNOPQRSTUVWXYZabcdefghijklmnopqrstuvwxyz0123456789+/".

Definition base64_digit (n : N) : ascii :=
  match String.get (N.to_nat (n mod 64)) base64_alphabet with
  | Some c => c
  | None => "="%char
  end.

Fixpoint base64 (bs : list byte) : string :=
  match bs with
  | [] => ""
  | [a] =>
      let n := (Byte.to_N a * 65536)%N in
      String (base64_digit (n / 262144))
        (String (base64_digit (n / 4096)) "==")
  | [a; b] =>
      let n := (Byte.to_N a * 65536 + Byte.to_N b * 256)%N in
      String (base64_digit (n / 262144))
        (String (base64_digit (n / 4096))
           (String (base64_digit (n / 64)) "="))
  | a :: b :: c :: rest =>
      let n := (Byte.to_N a * 65536 + Byte.to_N b * 256 + Byte.to_N c)%N in
      String (base64_digit (n / 262144))
        (String (base64_digit (n / 4096))
           (String (base64_digit (n / 64))
              (String (base64_digit n) (base64 rest))))
  end.

(** ** Data exchanged with the client and with the store *)

(** An [Error] object: what [new Error(...)] makes and, as far as the
    handlers read it, the error object of a store response. *)
Record Error : Type := { message : string }.

(** What a rejected SDK call hands to a catch block.  The uploader
    ([uploader.upload], [uploader.destroy]) rejects with the error
    object of the response, which has a [message].  The admin API
    ([api.resource], [api.resources]) rejects with an object that wraps
    it, [{ error: { message, http_code }, ... }], and so has no
    [message] property of its own.  The store interface below lets any
    call reject with either. *)
Inductive Thrown : Type :=
| Plain (err : Error)
| Wrapped (error : Error) (http_code : nat).

(** [err.message] as a catch block reads it; [undefined] is [None]. *)
Definition message_of (err : Thrown) : option string :=
  match err with
  | Plain e => Some (message e)
  | Wrapped _ _ => None
  end.

(** The message the store gave, wherever the rejection keeps it. *)
Definition store_message (err : Thrown) : string :=
  match err with
  | Plain e => message e
  | Wrapped e _ => message e
  end.

(** [req.file] as [multer.memoryStorage()] provides it. *)
Module File.
Record t : Type := { buffer : list byte; mimetype : string }.
End File.

(** A value handed to the store as [max_results]: the number [10] of the
    default, or the text of the query parameter. *)
Inductive jsvalue : Type :=
| VNumber (n : number)
| VString (s : string).

(** Options of [cloudinary.uploader.upload]. *)
Module UploadOptions.
Record t : Type := {
  resource_type : string;
  folder : string;
  use_filename : bool;
  unique_filename : bool;
  public_id : string
}.
End UploadOptions.

(** Options of [cloudinary.uploader.destroy]. *)
Module DestroyOptions.
Record t : Type := { resource_type : string }.
End DestroyOptions.

(** Options of [cloudinary.api.resources]. *)
Module ListOptions.
Record t : Type := {
  type : string;
  resource_type : string;
  prefix : string;
  max_results : jsvalue
}.
End ListOptions.

(** A resource as the store describes it (upload result, lookup result,
    element of a listing); only the fields the handlers read. *)
Module Resource.
Record t : Type := {
  secure_url : string;
  public_id : string;
  format : string;
  resource_type : string;
  bytes : number;
  mimetype : option string;
  width : option number;
  height : option number;
  display_name : string;
  created_at : string
}.
End Resource.

(** The result of [cloudinary.api.resources]. *)
Module Listing.
Record t : Type := { resources : list Resource.t }.
End Listing.

(** An entry of the [files] array of [GET /files]. *)
Module Asset.
Record t : Type := {
  url : string;
  public_id : string;
  format : string;
  resource_type : string;
  size : number;
  mimetype : option string;
  width : option number;
  height : option number;
  originalName : string;
  created_at : string
}.
End Asset.

(** The JSON bodies the service sends, one constructor per set of
    properties that [res.json] can write; [BEmpty] is the body [{}]. *)
Inductive Body : Type :=
| BMessage (message : string)
| BUploaded (message url public_id : string)
| BError (error : string)
| BErrorDetails (error details : string)
| BFiles (files : list Asset.t) (totalFiles : nat) (totalSize : number)
| BEmpty.

(** The keys of a body. *)
Definition fields (b : Body) : list string :=
  match b with
  | BMessage _ => ["message"]
  | BUploaded _ _ _ => ["message"; "url"; "public_id"]
  | BError _ => ["error"]
  | BErrorDetails _ _ => ["error"; "details"]
  | BFiles _ _ _ => ["files"; "totalFiles"; "totalSize"]
  | BEmpty => []
  end.

(** The string values a body carries at top level, with their keys. *)
Definition string_fields (b : Body) : list (string * string) :=
  match b with
  | BMessage m => [("message", m)]
  | BUploaded m u p => [("message", m); ("url", u); ("public_id", p)]
  | BError e => [("error", e)]
  | BErrorDetails e d => [("error", e); ("details", d)]
  | BFiles _ _ _ => []
  | BEmpty => []
  end.

Record Response : Type := { status : nat; body : Body }.

(** [res.json(b)] and [res.status(c).json(b)]. *)
Definition json (b : Body) : Response := {| status := 200; body := b |}.
Definition status_json (c : nat) (b : Body) : Response :=
  {| status := c; body := b |}.

(** The object literals [{ error: m }] and [{ error: e, details: m }]
    of the catch blocks, as [res.json] writes them: a property whose
    value is [undefined] is left out of the JSON text. *)
Definition error_body (m : option string) : Body :=
  match m with
  | Some e => BError e
  | None => BEmpty
  end.

Definition error_details_body (e : string) (m : option string) : Body :=
  match m with
  | Some d => BErrorDetails e d
  | None => BError e
  end.

(** ** The remote media store *)

(** The four SDK entry points the handlers use.  Each call either
    rejects with a [Thrown] or resolves to a result, and moves the store
    to a new state. *)
Class RemoteStore (St : Type) : Type := {
  uploader_upload :
    string -> UploadOptions.t -> St -> (Thrown + Resource.t) * St;
  api_resource : string -> St -> (Thrown + Resource.t) * St;
  uploader_destroy :
    string -> DestroyOptions.t -> St -> (Thrown + unit) * St;
  api_resources : ListOptions.t -> St -> (Thrown + Listing.t) * St
}.

(** A call made to the store. *)
Inductive Call : Type :=
| CallUpload (file : string) (options : UploadOptions.t)
| CallResource (public_id : string)
| CallDestroy (public_id : string) (options : DestroyOptions.t)
| CallResources (options : ListOptions.t).

(** A logged call, with what it was rejected with, if it was. *)
Record Entry : Type := { call : Call; rejected : option Thrown }.

Definition outcome {A : Type} (r : Thrown + A) : option Thrown :=
  match r with
  | inl e => Some e
  | inr _ => None
  end.

(** ** Handlers *)

Section Gateway.

Context {St : Type} `{RemoteStore St}.

(** The world a handler runs in: the store and the log of calls. *)
Record World : Type := { store : St; log : list Entry }.

(** A computation that may throw. *)
Definition M (A : Type) : Type := World -> (Thrown + A) * World.

Definition ret {A : Type} (a : A) : M A := fun w => (inr a, w).

Definition bind {A B : Type} (m : M A) (k : A -> M B) : M B :=
  fun w =>
    match m w with
    | (inl e, w') => (inl e, w')
    | (inr a, w') => k a w'
    end.

(** [try { m } catch (err) { h err }] where the catch block only
    sends a response. *)
Definition try_catch (m : M Response) (h : Thrown -> Response)
  : World -> Response * World :=
  fun w =>
    match m w with
    | (inl e, w') => (h e, w')
    | (inr r, w') => (r, w')
    end.

(** [await] of one SDK call: perform it, log it, throw on rejection. *)
Definition await {A : Type} (c : Call) (f : St -> (Thrown + A) * St)
  : M A :=
  fun w =>
    let (r, s') := f (store w) in
    (r, {| store := s';
           log := (log w ++ [{| call := c; rejected := outcome r |}])%list |}).

Notation "x <- m ;; k" := (bind m (fun x => k))
  (at level 61, m at next level, right associativity).

Definition upload (file : string) (options : UploadOptions.t)
  : M Resource.t :=
  await (CallUpload file options) (uploader_upload file options).

Definition resource (public_id : string) : M Resource.t :=
  await (CallResource public_id) (api_resource public_id).

Definition destroy (public_id : string) (options : DestroyOptions.t)
  : M unit :=
  await (CallDestroy public_id options) (uploader_destroy public_id options).

Definition resources (options : ListOptions.t) : M Listing.t :=
  await (CallResources options) (api_resources options).

(** *** [GET /] *)
Definition healthHandler : World -> Response * World :=
  fun w => (json (BMessage "Media uploader backend is running!"), w).

(** *** [POST /upload] *)

(** What the handler reads from its surroundings while it builds the
    upload options: [Date.now()], in milliseconds since the epoch, and
    [Math.random().toString(36)], the base-36 rendering of the random
    draw (such as ["0.4fzyo82mvyr"]). *)
Record Env : Type := { now : N; random36 : string }.

(** The template literal of the [public_id] option. *)
Definition generated_id (env : Env) : string :=
  JsNumber.toString (now env) ++ "-" ++ js_substring (random36 env) 2 8.

Definition upload_options (env : Env) : UploadOptions.t :=
  {| UploadOptions.resource_type := "auto";
     UploadOptions.folder := "wedding-memories";
     UploadOptions.use_filename := true;
     UploadOptions.unique_filename := false;
     UploadOptions.public_id := generated_id env |}.

(** Lines 65-66, for a payload whose base-64 text fits in one string of
    the engine. *)
Definition dataURI (file : File.t) : string :=
  let b64 := base64 (File.buffer file) in
  "data:" ++ File.mimetype file ++ ";base64," ++ b64.

Definition uploadHandler (env : Env) (file : option File.t)
  : World -> Response * World :=
  try_catch
    (match file with
     | None => ret (status_json 400 (BError "No file uploaded"))
     | Some f =>
         result <- upload (dataURI f) (upload_options env) ;;
         ret (json (BUploaded "Upload successful"
                      (Resource.secure_url result)
                      (Resource.public_id result)))
     end)
    (fun err => status_json 500 (error_body (message_of err))).

(** *** [DELETE /files/:cloudinaryId], the parameter being the greedy
    rest of the path *)
Definition deleteHandler (cloudinaryId : string)
  : World -> Response * World :=
  try_catch
    (res <- resource cloudinaryId ;;
     let resourceType := Resource.resource_type res in
     _ <- destroy cloudinaryId
            {| DestroyOptions.resource_type := resourceType |} ;;
     ret (json (BMessage "File deleted successfully from Cloudinary")))
    (fun error =>
       status_json 500
         (error_details_body "Failed to delete file from Cloudinary"
            (message_of error))).

(** *** [GET /files] *)

(** [const { max_results = 10 } = req.query]. *)
Definition max_results_of (query : option string) : jsvalue :=
  match query with
  | None => VNumber (Finite 10)
  | Some s => VString s
  end.

Definition list_options (kind : string) (max_results : jsvalue)
  : ListOptions.t :=
  {| ListOptions.type := "upload";
     ListOptions.resource_type := kind;
     ListOptions.prefix := "wedding-memories/";
     ListOptions.max_results := max_results |}.

(** The arrow function given to [resources.map]. *)
Definition project (file : Resource.t) : Asset.t :=
  {| Asset.url := Resource.secure_url file;
     Asset.public_id := Resource.public_id file;
     Asset.format := Resource.format file;
     Asset.resource_type := Resource.resource_type file;
     Asset.size := Resource.bytes file;
     Asset.mimetype := Resource.mimetype file;
     Asset.width := Resource.width file;
     Asset.height := Resource.height file;
     Asset.originalName := Resource.display_name file;
     Asset.created_at := Resource.created_at file |}.

(** [files.reduce((sum, f) => sum + f.size, 0)]. *)
Definition total_size (files : list Asset.t) : number :=
  fold_left (fun sum f => JsNumber.add sum (Asset.size f)) files (Finite 0).

Definition listing_body (images videos : Listing.t) : Body :=
  let resources :=
    (Listing.resources images ++ Listing.resources videos)%list in
  let files := map project resources in
  let totalFiles := List.length files in
  let totalSize := total_size files in
  BFiles files totalFiles totalSize.

Definition listHandler (query : option string)
  : World -> Response * World :=
  try_catch
    (let max_results := max_results_of query in
     images <- resources (list_options "image" max_results) ;;
     videos <- resources (list_options "video" max_results) ;;
     ret (json (listing_body images videos)))
    (fun err => status_json 500 (error_body (message_of err))).

(** *** The CORS layer in front of the routes *)

Definition allowedOrigins : list string :=
  [ "https://jmandmj.vercel.app";
    "https://media-uploader-backend.vercel.app";
    "http://localhost:3001";
    "http://localhost:5173" ].

(** [!origin], for the [Origin] header of a request: [undefined] when
    the header is absent, a string otherwise. *)
Definition not_origin (origin : option string) : bool :=
  match origin with
  | None => true
  | Some o => (o =? "")%string
  end.

(** [allowedOrigins.includes(origin)]. *)
Definition includes (xs : list string) (x : string) : bool :=
  existsb (String.eqb x) xs.

(** What the [origin] function passes to its callback: [(null, true)]
    or an error. *)
Inductive Verdict : Type :=
| Allow
| Deny (err : Error).

Definition corsOrigin (origin : option string) : Verdict :=
  if not_origin origin then Allow
  else
    match origin with
    | Some o =>
        if includes allowedOrigins o then Allow
        else Deny {| message := "Not allowed by CORS: " ++ o |}
    | None => Allow
    end.

(** A request, already matched against the routes of the application. *)
Inductive Route : Type :=
| GetRoot
| PostUpload (env : Env) (file : option File.t)
| DeleteFiles (cloudinaryId : string)
| GetFiles (max_results : option string)
| Unmatched.

Record Request : Type := { origin : option string; route : Route }.

(** What becomes of a request: the CORS middleware hands its error to
    [next], which skips every route; otherwise the matching route
    handler, if any, answers. *)
Inductive Served : Type :=
| Blocked (err : Error)
| Handled (r : Response)
| NotFound.

Definition dispatch (r : Route) : World -> Served * World :=
  fun w =>
    match r with
    | GetRoot => let (resp, w') := healthHandler w in (Handled resp, w')
    | PostUpload env file =>
        let (resp, w') := uploadHandler env file w in (Handled resp, w')
    | DeleteFiles id =>
        let (resp, w') := deleteHandler id w in (Handled resp, w')
    | GetFiles q => let (resp, w') := listHandler q w in (Handled resp, w')
    | Unmatched => (NotFound, w)
    end.

Definition serve (req : Request) : World -> Served * World :=
  fun w =>
    match corsOrigin (origin req) with
    | Deny err => (Blocked err, w)
    | Allow => dispatch (route req) w
    end.

(** The calls a handler issued, given the worlds before and after. *)
Definition issued (before after : World) : list Entry :=
  skipn (List.length (log before)) (log after).

(** The store answers a listing whose [max_results] is [v] with at
    most [n] resources. *)
Definition honours_cap (v : jsvalue) (n : nat) : Prop :=
  forall (o : ListOptions.t) (s s' : St) (l : Listing.t),
    ListOptions.max_results o = v ->
    api_resources o s = (inr l, s') ->
    List.length (Listing.resources l) <= n.

End Gateway.

Arguments World St : clear implicits.
Arguments M St A : clear implicits.

(** ** Shapes of identifiers *)

Definition is_digit (c : ascii) : bool :=
  let n := nat_of_ascii c in ((48 <=? n) && (n <=? 57))%nat.

Definition is_alnum (c : ascii) : bool :=
  let n := nat_of_ascii c in
  (((48 <=? n) && (n <=? 57)) || ((65 <=? n) && (n <=? 90))
   || ((97 <=? n) && (n <=? 122)))%nat.

Fixpoint all_chars (p : ascii -> bool) (s : string) : bool :=
  match s with
  | EmptyString => true
  | String c r => p c && all_chars p r
  end.

Fixpoint skip_digits (s : string) : string :=
  match s with
  | EmptyString => EmptyString
  | String c r => if is_digit c then skip_digits r else s
  end.

(** The pattern [<digits>-<6 alphanumeric chars>]: one digit or more, a
    hyphen, then exactly six letters or digits. *)
Definition id_pattern (s : string) : bool :=
  match s with
  | String c _ => is_digit c
  | EmptyString => false
  end
  && match skip_digits s with
     | String "-" suffix =>
         (String.length suffix =? 6)%nat && all_chars is_alnum suffix
     | _ => false
     end.

(** The [url] and [public_id] fields of a body, when it has them. *)
Definition body_url (b : Body) : option string :=
  match b with
  | BUploaded _ u _ => Some u
  | _ => None
  end.

Definition body_public_id (b : Body) : option string :=
  match b with
  | BUploaded _ _ p => Some p
  | _ => None
  end.

(** A body carries a message when one of its string fields is that
    message, character for character. *)
Definition carries (b : Body) (msg : string) : Prop :=
  exists key, In (key, msg) (string_fields b).

(** The mathematical sum of the sizes of a list of files: a natural
    number, or infinite as soon as one size is. *)
Fixpoint exact_sum (files : list Asset.t) : number :=
  match files with
  | [] => Finite 0
  | f :: rest =>
      match Asset.size f, exact_sum rest with
      | Finite x, Finite y => Finite (x + y)
      | _, _ => Infinity
      end
  end.

(** The sizes add up without leaving the integers a double holds. *)
Definition safe_total (files : list Asset.t) : Prop :=
  exists t, exact_sum files = Finite t /\ (t <= two53)%N.

(** ** A reference store

    An in-memory store with the provider's conventions the handlers
    rely on: an upload is filed under [folder/public_id]; a lookup
    without [resource_type] asks for an image, and is rejected when no
    image has the identifier; a destroy removes the asset of that
    identifier and kind (and resolves even when nothing matched); a
    listing is filtered by kind and prefix and cut at [max_results].
    Every call spends one unit of [quota]; with none left the call is
    rejected.  The uploader's calls reject with the error object, the
    admin API's with the object that wraps it. *)
Module MemStore.

Record t : Type := { assets : list Resource.t; quota : nat }.

Definition detect_kind (file : string) : string :=
  if String.prefix "data:image/" file then "image"
  else if String.prefix "data:video/" file then "video"
  else "raw".

Definition filed (file : string) (o : UploadOptions.t) : Resource.t :=
  let id := UploadOptions.folder o ++ "/" ++ UploadOptions.public_id o in
  {| Resource.secure_url := "https://res.cloudinary.com/demo/" ++ id;
     Resource.public_id := id;
     Resource.format := "";
     Resource.resource_type := detect_kind file;
     Resource.bytes := Finite (N.of_nat (String.length file));
     Resource.mimetype := None;
     Resource.width := None;
     Resource.height := None;
     Resource.display_name := UploadOptions.public_id o;
     Resource.created_at := "" |}.

Definition limit (v : jsvalue) : option nat :=
  match v with
  | VNumber (Finite n) => Some (N.to_nat n)
  | VNumber Infinity => None
  | VString s => option_map Nat.of_uint (NilEmpty.uint_of_string s)
  end.

Definition uploader_rejects (e : Error) : Thrown := Plain e.

Definition api_rejects (http_code : nat) (e : Error) : Thrown :=
  Wrapped e http_code.

Definition spend {A : Type} (rejects : Error -> Thrown) (s : t)
    (k : t -> (Thrown + A) * t)
  : (Thrown + A) * t :=
  match quota s with
  | O => (inl (rejects {| message := "Rate Limit Exceeded" |}), s)
  | S q => k {| assets := assets s; quota := q |}
  end.

Definition has_id (id : string) (r : Resource.t) : bool :=
  (Resource.public_id r =? id)%string.

Definition has_kind (kind : string) (r : Resource.t) : bool :=
  (Resource.resource_type r =? kind)%string.

Definition upload (file : string) (o : UploadOptions.t) (s : t)
  : (Thrown + Resource.t) * t :=
  spend uploader_rejects s (fun s' =>
    let r := filed file o in
    (inr r, {| assets := (assets s' ++ [r])%list; quota := quota s' |})).

Definition lookup (id : string) (s : t) : (Thrown + Resource.t) * t :=
  spend (api_rejects 420) s (fun s' =>
    match find (fun r => has_id id r && has_kind "image" r) (assets s') with
    | Some r => (inr r, s')
    | None =>
        (inl (api_rejects 404 {| message := "Resource not found - " ++ id |}),
         s')
    end).

Definition remove (id : string) (o : DestroyOptions.t) (s : t)
  : (Thrown + unit) * t :=
  spend uploader_rejects s (fun s' =>
    let gone r :=
      has_id id r && has_kind (DestroyOptions.resource_type o) r in
    (inr tt,
     {| assets := filter (fun r => negb (gone r)) (assets s');
        quota := quota s' |})).

Definition list (o : ListOptions.t) (s : t) : (Thrown + Listing.t) * t :=
  spend (api_rejects 420) s (fun s' =>
    match limit (ListOptions.max_results o) with
    | None =>
        (inl (api_rejects 400
                {| message := "Invalid value for max_results" |}),
         s')
    | Some n =>
        let wanted r :=
          has_kind (ListOptions.resource_type o) r
          && String.prefix (ListOptions.prefix o) (Resource.public_id r) in
        (inr {| Listing.resources := firstn n (filter wanted (assets s')) |},
         s')
    end).

End MemStore.

#[export] Instance MemStore_RemoteStore : RemoteStore MemStore.t := {
  uploader_upload := MemStore.upload;
  api_resource := MemStore.lookup;
  uploader_destroy := MemStore.remove;
  api_resources := MemStore.list
}.

(** ** Sample inputs *)

Module Sample.

(** A ten-byte payload labelled as a JPEG. *)
Definition jpeg : File.t :=
  {| File.buffer := [xff; xd8; xff; xe0; x00; x10; x4a; x46; x49; x46];
     File.mimetype := "image/jpeg" |}.

Definition env : Env := {| now := 1700000000000; random36 := "0.4fzyo82mvyr" |}.

(** The draw [0.5], whose base-36 rendering is ["0.i"]. *)
Definition env_half : Env := {| now := 1700000000000; random36 := "0.i" |}.

Definition asset (id kind : string) (bytes : N) : Resource.t :=
  {| Resource.secure_url := "https://res.cloudinary.com/demo/" ++ id;
     Resource.public_id := id;
     Resource.format := "";
     Resource.resource_type := kind;
     Resource.bytes := Finite bytes;
     Resource.mimetype := None;
     Resource.width := None;
     Resource.height := None;
     Resource.display_name := id;
     Resource.created_at := "" |}.

Definition world (assets : list Resource.t) (quota : nat)
  : World MemStore.t :=
  {| store := {| MemStore.assets := assets; MemStore.quota := quota |};
     log := [] |}.

(** Three images and two videos under the prefix. *)
Definition album : list Resource.t :=
  [ asset "wedding-memories/a" "image" 1000;
    asset "wedding-memories/b" "video" 2000;
    asset "wedding-memories/c" "image" 300;
    asset "wedding-memories/d" "image" 40;
    asset "wedding-memories/e" "video" 5 ].

Definition album_images : list Resource.t :=
  [ asset "wedding-memories/a" "image" 1000;
    asset "wedding-memories/c" "image" 300;
    asset "wedding-memories/d" "image" 40 ].

Definition album_videos : list Resource.t :=
  [ asset "wedding-memories/b" "video" 2000;
    asset "wedding-memories/e" "video" 5 ].

(** Two images whose sizes add up past [2^53]. *)
Definition huge : list Resource.t :=
  [ asset "wedding-memories/x" "image" 9007199254740992;
    asset "wedding-memories/y" "image" 1 ].

Definition quota_error : Error := {| message := "Rate Limit Exceeded" |}.

Definition missing : string := "wedding-memories/missing".

Definition missing_error : Error :=
  {| message := "Resource not found - wedding-memories/missing" |}.

(** The asset the reference store files for [jpeg] uploaded under [env]. *)
Definition uploaded : Resource.t :=
  MemStore.filed (dataURI jpeg) (upload_options env).

End Sample.

(** ** Every path through a request

    [outline r calls resp]: the handler of route [r] may issue exactly
    the calls [calls], with these outcomes, and then answer [resp].
    There is one constructor per path through a handler body. *)
Inductive outline : Route -> list Entry -> Response -> Prop :=
| health_answers :
    outline GetRoot [] (json (BMessage "Media uploader backend is running!"))
| upload_no_file (env : Env) :
    outline (PostUpload env None) []
      (status_json 400 (BError "No file uploaded"))
| upload_resolved (env : Env) (f : File.t) (result : Resource.t) :
    outline (PostUpload env (Some f))
      [{| call := CallUpload (dataURI f) (upload_options env);
          rejected := None |}]
      (json (BUploaded "Upload successful"
               (Resource.secure_url result) (Resource.public_id result)))
| upload_rejected (env : Env) (f : File.t) (e : Thrown) :
    outline (PostUpload env (Some f))
      [{| call := CallUpload (dataURI f) (upload_options env);
          rejected := Some e |}]
      (status_json 500 (error_body (message_of e)))
| delete_lookup_rejected (id : string) (e : Thrown) :
    outline (DeleteFiles id)
      [{| call := CallResource id; rejected := Some e |}]
      (status_json 500
         (error_details_body "Failed to delete file from Cloudinary"
            (message_of e)))
| delete_destroy_rejected (id : string) (res : Resource.t) (e : Thrown) :
    outline (DeleteFiles id)
      [{| call := CallResource id; rejected := None |};
       {| call := CallDestroy id
                    {| DestroyOptions.resource_type :=
                         Resource.resource_type res |};
          rejected := Some e |}]
      (status_json 500
         (error_details_body "Failed to delete file from Cloudinary"
            (message_of e)))
| delete_resolved (id : string) (res : Resource.t) :
    outline (DeleteFiles id)
      [{| call := CallResource id; rejected := None |};
       {| call := CallDestroy id
                    {| DestroyOptions.resource_type :=
                         Resource.resource_type res |};
          rejected := None |}]
      (json (BMessage "File deleted successfully from Cloudinary"))
| list_images_rejected (q : option string) (e : Thrown) :
    outline (GetFiles q)
      [{| call := CallResources (list_options "image" (max_results_of q));
          rejected := Some e |}]
      (status_json 500 (error_body (message_of e)))
| list_videos_rejected (q : option string) (e : Thrown) :
    outline (GetFiles q)
      [{| call := CallResources (list_options "image" (max_results_of q));
          rejected := None |};
       {| call := CallResources (list_options "video" (max_results_of q));
          rejected := Some e |}]
      (status_json 500 (error_body (message_of e)))
| list_resolved (q : option string) (images videos : Listing.t) :
    outline (GetFiles q)
      [{| call := CallResources (list_options "image" (max_results_of q));
          rejected := None |};
       {| call := CallResources (list_options "video" (max_results_of q));
          rejected := None |}]
      (json (listing_body images videos)).

(** The calls a route is entitled to: the upload of the posted file
    with the fixed options, the lookup and the destroy of the identifier
    of the path, the two listings of the query. *)
Definition permitted (r : Route) (c : Call) : Prop :=
  match r, c with
  | PostUpload env (Some f), CallUpload file options =>
      file = dataURI f /\ options = upload_options env
  | DeleteFiles id, CallResource public_id => public_id = id
  | DeleteFiles id, CallDestroy public_id _ => public_id = id
  | GetFiles q, CallResources options =>
      options = list_options "image" (max_results_of q)
      \/ options = list_options "video" (max_results_of q)
  | _, _ => False
  end.

(** ** Reading base-64 back

    The inverse of [base64], by which the encoding is shown to lose
    nothing: four characters give three bytes, or one or two before
    padding. *)
Definition base64_value (c : ascii) : N :=
  match String.index 0 (String c EmptyString) base64_alphabet with
  | Some k => N.of_nat k
  | None => 0
  end.

Definition byte_of_N (n : N) : byte :=
  match Byte.of_N n with
  | Some b => b
  | None => x00
  end.

Fixpoint unbase64 (s : string) : list byte :=
  match s with
  | String c1 (String c2 (String c3 (String c4 rest))) =>
      let n := (base64_value c1 * 262144 + base64_value c2 * 4096
                + base64_value c3 * 64 + base64_value c4)%N in
      if Ascii.eqb c3 "=" then [byte_of_N (n / 65536)]
      else if Ascii.eqb c4 "=" then
        [byte_of_N (n / 65536); byte_of_N ((n / 256) mod 256)]
      else
        byte_of_N (n / 65536) :: byte_of_N ((n / 256) mod 256)
          :: byte_of_N (n mod 256) :: unbase64 rest
  | _ => []
  end.

(** A character of a base-64 text: letter, digit, [+], [/] or the
    padding [=]. *)
Definition is_base64_char (c : ascii) : bool :=
  is_alnum c || Ascii.eqb c "+" || Ascii.eqb c "/" || Ascii.eqb c "=".

(** ** The path of a delete

    Express matches the route of line 88 against the path of the
    address, that is the address up to its first [?] or [#], without
    regard to case: the path must begin with [/files/], and the
    parameter captures all that follows, slashes included, provided it
    holds no line break.  The captured text is decoded with
    [decodeURIComponent] before the handler reads it as
    [req.params.cloudinaryId]; when it cannot be decoded the request is
    answered without any handler.  [decodeURIComponent] is a parameter
    here. *)
Fixpoint pathname_of (url : string) : string :=
  match url with
  | EmptyString => EmptyString
  | String c r =>
      if Ascii.eqb c "?" || Ascii.eqb c "#" then EmptyString
      else String c (pathname_of r)
  end.

Definition lower (c : ascii) : ascii :=
  let n := nat_of_ascii c in
  if ((65 <=? n) && (n <=? 90))%nat then ascii_of_nat (n + 32) else c.

(** What follows [p] in [s], when [s] begins with [p] up to case. *)
Fixpoint after_prefix_ci (p s : string) : option string :=
  match p, s with
  | EmptyString, _ => Some s
  | String a p', String b s' =>
      if Ascii.eqb (lower a) (lower b) then after_prefix_ci p' s' else None
  | String _ _, EmptyString => None
  end.

Definition line_break (c : ascii) : bool :=
  Ascii.eqb c "010" || Ascii.eqb c "013".

Definition capture_files (pathname : string) : option string :=
  match after_prefix_ci "/files/" pathname with
  | Some rest =>
      if all_chars (fun c => negb (line_break c)) rest then Some rest
      else None
  | None => None
  end.

Definition cloudinaryId_of (decodeURIComponent : string -> option string)
    (url : string) : option string :=
  match capture_files (pathname_of url) with
  | Some raw => decodeURIComponent raw
  | None => None
  end.

(** Where a DELETE request goes. *)
Definition route_delete (decodeURIComponent : string -> option string)
    (url : string) : Route :=
  match cloudinaryId_of decodeURIComponent url with
  | Some id => DeleteFiles id
  | None => Unmatched
  end.

(** A character that can stand in the path of an address as it is and
    that the decoding leaves alone: a visible ASCII character other
    than [%], [?] and [#]. *)
Definition plain_char (c : ascii) : bool :=
  let n := nat_of_ascii c in
  ((33 <=? n) && (n <=? 126))%nat
  && negb (Ascii.eqb c "%") && negb (Ascii.eqb c "?")
  && negb (Ascii.eqb c "#").

(** * Properties *)

(** ** Running the handlers *)

Section Runs.

Context {St : Type} `{RemoteStore St}.

Lemma issued_app (w : World St) (s : St) (l : list Entry) :
  issued w {| store := s; log := (log w ++ l)%list |} = l.
Proof.
  unfold issued; simpl.
  rewrite skipn_app, skipn_all, Nat.sub_diag; reflexivity.
Qed.

Lemma issued_same (w : World St) : issued w w = [].
Proof. unfold issued; apply skipn_all. Qed.

Lemma uploadHandler_none (env : Env) (w : World St) :
  uploadHandler env None w = (status_json 400 (BError "No file uploaded"), w).
Proof. reflexivity. Qed.

Lemma uploadHandler_run (env : Env) (f : File.t) (w : World St) :
  uploadHandler env (Some f) w =
  let c := CallUpload (dataURI f) (upload_options env) in
  match uploader_upload (dataURI f) (upload_options env) (store w) with
  | (inl e, s1) =>
      (status_json 500 (error_body (message_of e)),
       {| store := s1;
          log := (log w ++ [{| call := c; rejected := Some e |}])%list |})
  | (inr result, s1) =>
      (json (BUploaded "Upload successful"
               (Resource.secure_url result) (Resource.public_id result)),
       {| store := s1;
          log := (log w ++ [{| call := c; rejected := None |}])%list |})
  end.
Proof.
  unfold uploadHandler, try_catch, bind, upload, await, ret.
  destruct (uploader_upload _ _ _) as [[e | result] s1]; reflexivity.
Qed.

Lemma deleteHandler_run (id : string) (w : World St) :
  deleteHandler id w =
  let failed e :=
    status_json 500
      (error_details_body "Failed to delete file from Cloudinary"
         (message_of e)) in
  match api_resource id (store w) with
  | (inl e, s1) =>
      (failed e,
       {| store := s1;
          log := (log w
                  ++ [{| call := CallResource id; rejected := Some e |}])%list |})
  | (inr res, s1) =>
      let o := {| DestroyOptions.resource_type :=
                    Resource.resource_type res |} in
      let looked := {| call := CallResource id; rejected := None |} in
      match uploader_destroy id o s1 with
      | (inl e, s2) =>
          (failed e,
           {| store := s2;
              log := (log w ++ [looked;
                        {| call := CallDestroy id o;
                           rejected := Some e |}])%list |})
      | (inr _, s2) =>
          (json (BMessage "File deleted successfully from Cloudinary"),
           {| store := s2;
              log := (log w ++ [looked;
                        {| call := CallDestroy id o;
                           rejected := None |}])%list |})
      end
  end.
Proof.
  unfold deleteHandler, try_catch, bind, resource, destroy, await, ret.
  destruct (api_resource _ _) as [[e | res] s1]; cbn; [reflexivity |].
  destruct (uploader_destroy _ _ _) as [[e | u] s2]; cbn;
    rewrite <- app_assoc; reflexivity.
Qed.

Lemma listHandler_run (query : option string) (w : World St) :
  listHandler query w =
  let v := max_results_of query in
  let img := list_options "image" v in
  let vid := list_options "video" v in
  let failed e := status_json 500 (error_body (message_of e)) in
  match api_resources img (store w) with
  | (inl e, s1) =>
      (failed e,
       {| store := s1;
          log := (log w
                  ++ [{| call := CallResources img;
                         rejected := Some e |}])%list |})
  | (inr images, s1) =>
      let first := {| call := CallResources img; rejected := None |} in
      match api_resources vid s1 with
      | (inl e, s2) =>
          (failed e,
           {| store := s2;
              log := (log w ++ [first;
                        {| call := CallResources vid;
                           rejected := Some e |}])%list |})
      | (inr videos, s2) =>
          (json (listing_body images videos),
           {| store := s2;
              log := (log w ++ [first;
                        {| call := CallResources vid;
                           rejected := None |}])%list |})
      end
  end.
Proof.
  unfold listHandler, try_catch, bind, resources, await, ret.
  destruct (api_resources _ _) as [[e | images] s1]; cbn; [reflexivity |].
  destruct (api_resources _ _) as [[e | videos] s2]; cbn;
    rewrite <- app_assoc; reflexivity.
Qed.

(** The calls of a delete, whatever the store answers. *)
Lemma deleteHandler_calls (id : string) (w : World St) :
  map call (issued w (snd (deleteHandler id w))) =
  match fst (api_resource id (store w)) with
  | inl _ => [CallResource id]
  | inr res =>
      [CallResource id;
       CallDestroy id
         {| DestroyOptions.resource_type := Resource.resource_type res |}]
  end.
Proof.
  rewrite deleteHandler_run.
  destruct (api_resource _ _) as [[e | res] s1]; cbn.
  - rewrite issued_app; reflexivity.
  - destruct (uploader_destroy _ _ _) as [[e | u] s2]; cbn;
      rewrite issued_app; reflexivity.
Qed.

End Runs.

(** ** Identifiers and numbers *)

Section Identifiers.

Lemma string_of_uint_digits (d : Decimal.uint) :
  all_chars is_digit (NilEmpty.string_of_uint d) = true.
Proof. induction d; cbn; auto. Qed.

Lemma toString_digits (n : N) :
  all_chars is_digit (JsNumber.toString n) = true.
Proof. apply string_of_uint_digits. Qed.

Lemma toString_nonempty (n : N) :
  exists c r, JsNumber.toString n = String c r.
Proof.
  unfold JsNumber.toString.
  assert (N.to_uint n <> Decimal.Nil) as Hnil.
  { destruct n as [| p]; cbn; [discriminate | apply Unsigned.to_uint_nonnil]. }
  destruct (N.to_uint n); [congruence | ..]; cbn; eauto.
Qed.

Lemma skip_digits_app (d rest : string) :
  all_chars is_digit d = true ->
  skip_digits (d ++ String "-" rest) = String "-" rest.
Proof.
  induction d as [| c d IH]; cbn [all_chars append skip_digits]; intros Hd.
  - reflexivity.
  - apply andb_true_iff in Hd as [Hc Hd]. rewrite Hc. auto.
Qed.

Lemma substring_0_length (n : nat) (s : string) :
  n <= String.length s -> String.length (substring 0 n s) = n.
Proof.
  revert s; induction n as [| n IH]; intros [| c s] Hn; cbn in *;
    try reflexivity; try lia.
  rewrite IH by lia. reflexivity.
Qed.

Lemma substring_0_all (p : ascii -> bool) (n : nat) (s : string) :
  all_chars p s = true -> all_chars p (substring 0 n s) = true.
Proof.
  revert s; induction n as [| n IH]; intros [| c s] Hs; cbn in *;
    try reflexivity.
  apply andb_true_iff in Hs as [Hc Hs]. rewrite Hc, IH by assumption.
  reflexivity.
Qed.

Lemma all_chars_impl (p q : ascii -> bool) (s : string) :
  (forall c, p c = true -> q c = true) ->
  all_chars p s = true -> all_chars q s = true.
Proof.
  intros Hpq. induction s as [| c s IH]; cbn; [reflexivity |].
  intros Hs. apply andb_true_iff in Hs as [Hc Hs].
  rewrite (Hpq c Hc), IH by assumption. reflexivity.
Qed.

Lemma pathname_of_plain (s : string) :
  all_chars plain_char s = true -> pathname_of s = s.
Proof.
  induction s as [| c s IH]; cbn; [reflexivity |].
  intros Hs. apply andb_true_iff in Hs as [Hc Hs].
  destruct (Ascii.eqb_spec c "?") as [-> | _]; [discriminate Hc |].
  destruct (Ascii.eqb_spec c "#") as [-> | _]; [discriminate Hc |].
  cbn. rewrite IH by assumption. reflexivity.
Qed.

(** A plain identifier after [/files/] reaches the handler as it is. *)
Lemma route_delete_plain (decode : string -> option string) (p : string) :
  (forall s : string,
      all_chars (fun c => negb (Ascii.eqb c "%")) s = true ->
      decode s = Some s) ->
  all_chars plain_char p = true ->
  route_delete decode ("/files/" ++ p) = DeleteFiles p.
Proof.
  intros Hdecode Hp.
  unfold route_delete, cloudinaryId_of.
  change (pathname_of ("/files/" ++ p)) with ("/files/" ++ pathname_of p).
  rewrite pathname_of_plain by assumption.
  unfold capture_files.
  change (after_prefix_ci "/files/" ("/files/" ++ p)) with (Some p).
  cbv beta iota.
  rewrite (all_chars_impl plain_char (fun c => negb (line_break c)) p).
  - rewrite Hdecode; [reflexivity |].
    apply (all_chars_impl plain_char); [| assumption].
    intros c Hc.
    destruct (Ascii.eqb_spec c "%") as [-> | _];
      [discriminate Hc | reflexivity].
  - intros c Hc. unfold line_break.
    destruct (Ascii.eqb_spec c "010") as [-> | _]; [discriminate Hc |].
    destruct (Ascii.eqb_spec c "013") as [-> | _]; [discriminate Hc |].
    reflexivity.
  - assumption.
Qed.

(** A long enough random rendering gives an identifier of the pattern. *)
Lemma generated_id_pattern (env : Env) (frac : string) :
  random36 env = "0." ++ frac ->
  6 <= String.length frac ->
  all_chars is_alnum frac = true ->
  id_pattern (generated_id env) = true.
Proof.
  intros Hr Hlen Halnum.
  unfold generated_id, id_pattern. rewrite Hr.
  change (js_substring ("0." ++ frac) 2 8) with (substring 0 6 frac).
  change ("-" ++ substring 0 6 frac) with (String "-" (substring 0 6 frac)).
  destruct (toString_nonempty (now env)) as (c & r & Hts).
  pose proof (toString_digits (now env)) as Hd.
  rewrite skip_digits_app by assumption.
  rewrite Hts in *. cbn in Hd |- *.
  apply andb_true_iff in Hd as [Hc _]. rewrite Hc.
  rewrite substring_0_length, substring_0_all by assumption.
  reflexivity.
Qed.

Lemma two53_below_overflow : (two53 <? 2 ^ 1024)%N = true.
Proof. vm_compute. reflexivity. Qed.

(** Within the integers a double holds, [+] is exact. *)
Lemma add_exact (x y : N) :
  (x + y <= two53)%N ->
  JsNumber.add (Finite x) (Finite y) = Finite (x + y).
Proof.
  intros Hle. unfold JsNumber.add, round53.
  apply N.leb_le in Hle as Hb. rewrite Hb.
  assert ((x + y <? 2 ^ 1024)%N = true) as ->; [| reflexivity].
  pose proof two53_below_overflow as Hlt.
  apply N.ltb_lt in Hlt. apply N.ltb_lt. lia.
Qed.

Lemma total_size_from (files : list Asset.t) (acc t : N) :
  exact_sum files = Finite t ->
  (acc + t <= two53)%N ->
  fold_left (fun sum f => JsNumber.add sum (Asset.size f)) files (Finite acc)
  = Finite (acc + t).
Proof.
  revert acc t; induction files as [| f files IH]; intros acc t Hsum Hle.
  - cbn in *. injection Hsum as <-. rewrite N.add_0_r. reflexivity.
  - cbn [exact_sum] in Hsum. cbn [fold_left].
    destruct (Asset.size f) as [x |]; [| discriminate].
    destruct (exact_sum files) as [y |] eqn:Hy; [| discriminate].
    injection Hsum as <-.
    rewrite add_exact by lia.
    rewrite (IH (acc + x)%N y) by (trivial; lia).
    f_equal. lia.
Qed.

Lemma total_size_exact (files : list Asset.t) (t : N) :
  exact_sum files = Finite t ->
  (t <= two53)%N ->
  total_size files = Finite t.
Proof.
  intros Hsum Hle. unfold total_size.
  rewrite (total_size_from files 0 t) by (trivial; lia).
  reflexivity.
Qed.

End Identifiers.

(** ** Properties of the handlers, for every store *)

Section Claims.

Context {St : Type} `{RemoteStore St}.

(** A listing response comes from two resolved queries, the image one
    first, the video one on the store as the image query left it. *)
Lemma listHandler_files (query : option string) (w : World St)
    (files : list Asset.t) (n : nat) (sz : number) :
  body (fst (listHandler query w)) = BFiles files n sz ->
  exists images s1 videos s2,
    api_resources (list_options "image" (max_results_of query)) (store w)
    = (inr images, s1)
    /\ api_resources (list_options "video" (max_results_of query)) s1
       = (inr videos, s2)
    /\ fst (listHandler query w) = json (listing_body images videos).
Proof.
  rewrite listHandler_run; cbn zeta.
  destruct (api_resources _ (store w)) as [[e | images] s1] eqn:Himg;
    [destruct e; discriminate |].
  destruct (api_resources _ s1) as [[e | videos] s2] eqn:Hvid;
    [destruct e; discriminate |].
  intros _. exists images, s1, videos, s2. auto.
Qed.

(** C1 (amended): a delete of [id] first asks the store for the
    resource of [id]; when that lookup resolves, it is followed by
    exactly one destroy of [id] whose kind is the one the lookup
    reported; when the lookup is rejected, no destroy is issued.  No
    destroy precedes the lookup or names another kind. *)
Theorem delete_lookup_then_destroy (id : string) (w : World St) :
  map call (issued w (snd (deleteHandler id w))) =
  match fst (api_resource id (store w)) with
  | inl _ => [CallResource id]
  | inr res =>
      [CallResource id;
       CallDestroy id
         {| DestroyOptions.resource_type := Resource.resource_type res |}]
  end.
Proof. apply deleteHandler_calls. Qed.

(** C2 (amended): when the store resolves the upload, [POST /upload]
    answers 200 with [url] the secure URL and [public_id] the
    identifier that the store reports for the new asset; the identifier
    generated by the service is the [public_id] option of the one
    upload call, and it matches [<digits>-<6 alphanumeric chars>]
    whenever the base-36 rendering of the random draw has six digits
    or more after the point. *)
Theorem upload_success_response (env : Env) (f : File.t) (w : World St)
    (result : Resource.t) (s1 : St) :
  uploader_upload (dataURI f) (upload_options env) (store w)
  = (inr result, s1) ->
  let resp := fst (uploadHandler env (Some f) w) in
  let after := snd (uploadHandler env (Some f) w) in
  status resp = 200
  /\ body_url (body resp) = Some (Resource.secure_url result)
  /\ body_public_id (body resp) = Some (Resource.public_id result)
  /\ map call (issued w after)
     = [CallUpload (dataURI f) (upload_options env)]
  /\ UploadOptions.public_id (upload_options env) = generated_id env
  /\ (forall frac : string,
         random36 env = "0." ++ frac ->
         6 <= String.length frac ->
         all_chars is_alnum frac = true ->
         id_pattern (generated_id env) = true).
Proof.
  intros Hup. rewrite uploadHandler_run; cbn zeta. rewrite Hup; cbn.
  rewrite issued_app.
  repeat split; trivial.
  intros frac. apply generated_id_pattern.
Qed.

(** C3 (amended): in a successful [GET /files] response the files are
    the projection of the image results followed by the video
    results, [totalFiles] is the number of entries, and [totalSize] is
    the exact sum of their [size] fields provided that sum does not
    exceed [2^53]. *)
Theorem listing_totals (query : option string) (w : World St)
    (files : list Asset.t) (n : nat) (sz : number) :
  body (fst (listHandler query w)) = BFiles files n sz ->
  status (fst (listHandler query w)) = 200
  /\ (exists images s1 videos s2,
         api_resources (list_options "image" (max_results_of query))
           (store w) = (inr images, s1)
         /\ api_resources (list_options "video" (max_results_of query)) s1
            = (inr videos, s2)
         /\ files = map project
                      (Listing.resources images ++ Listing.resources videos))
  /\ n = List.length files
  /\ (safe_total files -> sz = exact_sum files).
Proof.
  intros Hbody.
  destruct (listHandler_files _ _ _ _ _ Hbody)
    as (images & s1 & videos & s2 & Himg & Hvid & Hresp).
  rewrite Hresp in Hbody |- *. cbn in Hbody.
  injection Hbody as <- <- <-.
  split; [reflexivity |]. split; [| split; [reflexivity |]].
  - exists images, s1, videos, s2. auto.
  - intros (t & Hsum & Hle). rewrite Hsum.
    apply total_size_exact; assumption.
Qed.

(** C4 (amended): [GET /files] hands the store the value of
    [max_results], or the number 10 when the parameter is absent;
    it issues the image query and, when that one resolves, the video
    query, each of type upload, under the prefix [wedding-memories/]
    and with that same [max_results]; when the image query is
    rejected the video query is not issued.  If the store answers a
    listing for that value with at most [n] resources, the returned
    list has at most [2n] entries. *)
Theorem listing_queries_and_bound (query : option string) (w : World St) :
  let v := max_results_of query in
  let img := list_options "image" v in
  let vid := list_options "video" v in
  max_results_of None = VNumber (Finite 10)
  /\ (forall s : string, max_results_of (Some s) = VString s)
  /\ img = {| ListOptions.type := "upload";
              ListOptions.resource_type := "image";
              ListOptions.prefix := "wedding-memories/";
              ListOptions.max_results := v |}
  /\ vid = {| ListOptions.type := "upload";
              ListOptions.resource_type := "video";
              ListOptions.prefix := "wedding-memories/";
              ListOptions.max_results := v |}
  /\ map call (issued w (snd (listHandler query w))) =
     match fst (api_resources img (store w)) with
     | inl _ => [CallResources img]
     | inr _ => [CallResources img; CallResources vid]
     end
  /\ (forall (n : nat) (files : list Asset.t) (k : nat) (sz : number),
         honours_cap v n ->
         body (fst (listHandler query w)) = BFiles files k sz ->
         List.length files <= 2 * n).
Proof.
  cbn zeta. repeat (split; [reflexivity |]). split.
  - rewrite listHandler_run; cbn zeta.
    destruct (api_resources _ (store w)) as [[e | images] s1]; cbn.
    + rewrite issued_app; reflexivity.
    + destruct (api_resources _ s1) as [[e | videos] s2]; cbn;
        rewrite issued_app; reflexivity.
  - intros n files k sz Hcap Hbody.
    destruct (listHandler_files _ _ _ _ _ Hbody)
      as (images & s1 & videos & s2 & Himg & Hvid & Hresp).
    rewrite Hresp in Hbody. cbn in Hbody. injection Hbody as <- _ _.
    apply Hcap in Himg; [| reflexivity].
    apply Hcap in Hvid; [| reflexivity].
    rewrite length_map, length_app. lia.
Qed.

(** C6: [POST /upload] without a file part answers 400 with the
    non-empty error ["No file uploaded"], leaves the store as it was
    and issues no call to it. *)
Theorem upload_without_file (env : Env) (w : World St) :
  let resp := fst (uploadHandler env None w) in
  let after := snd (uploadHandler env None w) in
  status resp = 400
  /\ (exists msg, body resp = BError msg /\ msg <> "")
  /\ after = w
  /\ issued w after = [].
Proof.
  rewrite uploadHandler_none; cbn.
  repeat split.
  - exists "No file uploaded". split; [reflexivity | discriminate].
  - apply issued_same.
Qed.

(** C8 (amended): a request whose [Origin] header is present, not
    empty and not in the allow-list is stopped by the CORS layer: no
    route handler runs and the store is untouched.  A request without
    an [Origin] header goes through to the routes. *)
Theorem cors_gate :
  (forall (o : string) (r : Route) (w : World St),
      o <> "" ->
      ~ In o allowedOrigins ->
      serve {| origin := Some o; route := r |} w
      = (Blocked {| message := "Not allowed by CORS: " ++ o |}, w))
  /\ (forall (r : Route) (w : World St),
         corsOrigin None = Allow
         /\ serve {| origin := None; route := r |} w = dispatch r w).
Proof.
  split.
  - intros o r w Hne Hnot.
    unfold serve, corsOrigin, not_origin; cbn [origin route].
    apply String.eqb_neq in Hne. rewrite Hne.
    destruct (includes allowedOrigins o) eqn:Hin; [| reflexivity].
    exfalso. apply Hnot. unfold includes in Hin.
    apply existsb_exists in Hin as (x & Hx & Heq).
    apply String.eqb_eq in Heq. subst x. exact Hx.
  - intros r w. split; reflexivity.
Qed.


(** C10: in a successful [GET /files] response the entries of the
    image query come first and those of the video query after them,
    each group in the order in which the store returned it. *)
Theorem images_before_videos (query : option string) (w : World St)
    (files : list Asset.t) (n : nat) (sz : number) :
  body (fst (listHandler query w)) = BFiles files n sz ->
  exists images s1 videos s2,
    api_resources (list_options "image" (max_results_of query)) (store w)
    = (inr images, s1)
    /\ api_resources (list_options "video" (max_results_of query)) s1
       = (inr videos, s2)
    /\ files = (map project (Listing.resources images)
                ++ map project (Listing.resources videos))%list.
Proof.
  intros Hbody.
  destruct (listHandler_files _ _ _ _ _ Hbody)
    as (images & s1 & videos & s2 & Himg & Hvid & Hresp).
  rewrite Hresp in Hbody. cbn in Hbody. injection Hbody as <- _ _.
  exists images, s1, videos, s2. rewrite map_app. auto.
Qed.

End Claims.

(** ** The reference store at work *)

Lemma MemStore_honours_cap (v : jsvalue) (n : nat) :
  MemStore.limit v = Some n -> honours_cap (St := MemStore.t) v n.
Proof.
  intros Hlim o s s' l Hv. cbn. unfold MemStore.list, MemStore.spend.
  destruct (MemStore.quota s); [discriminate |].
  rewrite Hv, Hlim. intros Heq. injection Heq as <- _. cbn.
  apply firstn_le_length.
Qed.

(** An upload of the sample JPEG to the reference store. *)
Lemma upload_success_response_witness :
  let w := Sample.world [] 5 in
  uploader_upload (dataURI Sample.jpeg) (upload_options Sample.env) (store w)
  = (inr Sample.uploaded,
     {| MemStore.assets := [Sample.uploaded]; MemStore.quota := 4 |})
  /\ status (fst (uploadHandler Sample.env (Some Sample.jpeg) w)) = 200
  /\ body_url (body (fst (uploadHandler Sample.env (Some Sample.jpeg) w)))
     = Some (Resource.secure_url Sample.uploaded)
  /\ body_public_id (body (fst (uploadHandler Sample.env (Some Sample.jpeg) w)))
     = Some (Resource.public_id Sample.uploaded)
  /\ id_pattern (generated_id Sample.env) = true.
Proof.
  cbn zeta.
  assert (uploader_upload (dataURI Sample.jpeg) (upload_options Sample.env)
            (store (Sample.world [] 5))
          = (inr Sample.uploaded,
             {| MemStore.assets := [Sample.uploaded]; MemStore.quota := 4 |}))
    as Hup by reflexivity.
  split; [exact Hup |].
  destruct (upload_success_response _ _ _ _ _ Hup)
    as (Hs & Hu & Hp & _ & _ & Hpat).
  split; [exact Hs |]. split; [exact Hu |]. split; [exact Hp |].
  apply (Hpat "4fzyo82mvyr"); [reflexivity | cbn; lia | reflexivity].
Defined.

(** The album of three images and two videos, listed with the default
    [max_results]: five files, 3345 bytes. *)
Lemma listing_totals_witness :
  let w := Sample.world Sample.album 5 in
  let files := map project (Sample.album_images ++ Sample.album_videos) in
  body (fst (listHandler None w)) = BFiles files 5 (Finite 3345)
  /\ safe_total files
  /\ 5 = List.length files
  /\ Finite 3345 = exact_sum files.
Proof.
  cbn zeta.
  assert (body (fst (listHandler None (Sample.world Sample.album 5)))
          = BFiles (map project (Sample.album_images ++ Sample.album_videos))
              5 (Finite 3345)) as Hbody by reflexivity.
  assert (safe_total (map project (Sample.album_images ++ Sample.album_videos)))
    as Hsafe.
  { exists 3345%N. split; [reflexivity | unfold two53; lia]. }
  destruct (listing_totals _ _ _ _ _ Hbody) as (_ & _ & Hn & Hsz).
  split; [exact Hbody |]. split; [exact Hsafe |]. split; [exact Hn |].
  exact (Hsz Hsafe).
Defined.

(** [max_results=1] on the album: one image and one video at most. *)
Lemma listing_queries_and_bound_witness :
  let w := Sample.world Sample.album 5 in
  honours_cap (St := MemStore.t) (max_results_of (Some "1")) 1
  /\ (exists files k sz,
         body (fst (listHandler (Some "1") w)) = BFiles files k sz
         /\ List.length files <= 2 * 1)
  /\ map call (issued w (snd (listHandler (Some "1") w)))
     = [CallResources (list_options "image" (VString "1"));
        CallResources (list_options "video" (VString "1"))].
Proof.
  cbn zeta.
  assert (honours_cap (St := MemStore.t) (max_results_of (Some "1")) 1)
    as Hcap by (apply MemStore_honours_cap; reflexivity).
  destruct (listing_queries_and_bound (Some "1") (Sample.world Sample.album 5))
    as (_ & _ & _ & _ & Hcalls & Hbound).
  split; [exact Hcap |]. split.
  - eexists _, _, _. split; [reflexivity |].
    eapply Hbound; [exact Hcap | reflexivity].
  - exact Hcalls.
Defined.

(** A foreign origin is stopped; a request without origin is routed. *)
Lemma cors_gate_witness :
  let o := "https://evil.example" in
  let w := Sample.world Sample.album 5 in
  o <> ""
  /\ ~ In o allowedOrigins
  /\ serve {| origin := Some o; route := DeleteFiles "wedding-memories/a" |} w
     = (Blocked {| message := "Not allowed by CORS: https://evil.example" |}, w)
  /\ serve {| origin := None; route := GetRoot |} w = dispatch GetRoot w.
Proof.
  cbn zeta.
  assert ("https://evil.example" <> "") as Hne by discriminate.
  assert (~ In "https://evil.example" allowedOrigins) as Hnot.
  { cbn. intros [Heq | [Heq | [Heq | [Heq | []]]]]; discriminate. }
  split; [exact Hne |]. split; [exact Hnot |]. split.
  - exact (proj1 (cors_gate (St := MemStore.t)) _ _ _ Hne Hnot).
  - exact (proj2 (proj2 (cors_gate (St := MemStore.t)) GetRoot
                    (Sample.world Sample.album 5))).
Defined.


(** The album is stored in mixed order and listed images first. *)
Lemma images_before_videos_witness :
  let w := Sample.world Sample.album 5 in
  let files := map project (Sample.album_images ++ Sample.album_videos) in
  body (fst (listHandler None w)) = BFiles files 5 (Finite 3345)
  /\ exists images s1 videos s2,
       api_resources (list_options "image" (max_results_of None)) (store w)
       = (inr images, s1)
       /\ api_resources (list_options "video" (max_results_of None)) s1
          = (inr videos, s2)
       /\ files = (map project (Listing.resources images)
                   ++ map project (Listing.resources videos))%list.
Proof.
  cbn zeta.
  assert (body (fst (listHandler None (Sample.world Sample.album 5)))
          = BFiles (map project (Sample.album_images ++ Sample.album_videos))
              5 (Finite 3345)) as Hbody by reflexivity.
  split; [exact Hbody |].
  exact (images_before_videos _ _ _ _ _ Hbody).
Defined.

(** ** Failures whose message is lost *)

(** C5: evaluated where the code departs from it.  A listing whose
    video query the store rejects, after the image query resolved, is
    answered with 500 and with neither files nor totals; but the admin
    API rejects with an object that keeps the message under [error],
    [err.message] is undefined, and the body that goes out is [{}],
    without the [error] field. *)
Theorem listing_failure_has_no_error_field :
  let w := Sample.world Sample.album 1 in
  let resp := fst (listHandler None w) in
  map rejected (issued w (snd (listHandler None w)))
  = [None; Some (Wrapped {| message := "Rate Limit Exceeded" |} 420)]
  /\ status resp = 500
  /\ body resp = BEmpty
  /\ fields (body resp) = []
  /\ ~ In "error" (fields (body resp)).
Proof.
  cbn zeta. split; [reflexivity |]. split; [reflexivity |].
  split; [reflexivity |]. split; [reflexivity |]. intros [].
Qed.

(** C7: evaluated where the code departs from it.  A delete whose
    lookup the store rejects is answered with 500; but the admin API
    rejects with an object that keeps the message under [error],
    [error.message] is undefined, and the body that goes out is
    [{ error: "Failed to delete file from Cloudinary" }], without
    [details]: the message of the store is not in it. *)
Theorem lookup_failure_message_is_lost :
  let w := Sample.world Sample.album 5 in
  let resp := fst (deleteHandler Sample.missing w) in
  map rejected (issued w (snd (deleteHandler Sample.missing w)))
  = [Some (Wrapped Sample.missing_error 404)]
  /\ store_message (Wrapped Sample.missing_error 404)
     = "Resource not found - wedding-memories/missing"
  /\ status resp = 500
  /\ body resp = BError "Failed to delete file from Cloudinary"
  /\ ~ carries (body resp) "Resource not found - wedding-memories/missing".
Proof.
  cbn zeta. split; [reflexivity |]. split; [reflexivity |].
  split; [reflexivity |]. split; [reflexivity |].
  intros (key & [Heq | []]). discriminate.
Qed.

(** ** Inputs on which the properties as first worded fail *)

(** C1 as worded (every delete issues exactly one destroy): the lookup
    of an identifier the store does not know is rejected, and the
    handler then issues no destroy at all. *)
Lemma delete_unknown_id_issues_no_destroy :
  let w := Sample.world Sample.album 5 in
  let calls := map call (issued w (snd (deleteHandler Sample.missing w))) in
  calls = [CallResource Sample.missing]
  /\ ~ (exists k, In (CallDestroy Sample.missing k) calls)
  /\ status (fst (deleteHandler Sample.missing w)) = 500.
Proof.
  cbn zeta. split; [reflexivity |]. split; [| reflexivity].
  intros (k & [Heq | []]). discriminate.
Qed.

(** C2 as worded ([public_id] is the generated identifier and matches
    the pattern): the store files the upload under the folder, so the
    identifier it reports, which is the one sent back, is neither the
    generated one nor of the pattern; and for the draw [0.5] the
    generated identifier itself has a one-character suffix. *)
Lemma upload_public_id_is_the_stores :
  let resp := fst (uploadHandler Sample.env (Some Sample.jpeg)
                     (Sample.world [] 5)) in
  status resp = 200
  /\ File.buffer Sample.jpeg <> []
  /\ body_public_id (body resp) = Some "wedding-memories/1700000000000-4fzyo8"
  /\ generated_id Sample.env = "1700000000000-4fzyo8"
  /\ body_public_id (body resp) <> Some (generated_id Sample.env)
  /\ id_pattern "wedding-memories/1700000000000-4fzyo8" = false
  /\ generated_id Sample.env_half = "1700000000000-i"
  /\ id_pattern (generated_id Sample.env_half) = false.
Proof.
  cbn zeta.
  split; [reflexivity |]. split; [discriminate |].
  split; [reflexivity |]. split; [reflexivity |].
  split; [discriminate |]. split; [reflexivity |].
  split; reflexivity.
Qed.

(** C3 as worded ([totalSize] is always the exact sum): with sizes
    [2^53] and [1] the sum [2^53 + 1] is not a double, and the reduce
    yields [2^53]. *)
Lemma total_size_rounds_past_two53 :
  let resp := fst (listHandler None (Sample.world Sample.huge 5)) in
  let files := map project Sample.huge in
  status resp = 200
  /\ body resp = BFiles files 2 (Finite 9007199254740992)
  /\ exact_sum files = Finite 9007199254740993
  /\ total_size files <> exact_sum files.
Proof.
  cbn zeta.
  split; [reflexivity |]. split; [reflexivity |]. split; [reflexivity |].
  vm_compute. discriminate.
Qed.

(** C4 as worded (every request issues the two queries): when the image
    query is rejected the handler answers at once and the video query
    is never issued. *)
Lemma rejected_image_query_stops_listing :
  let w := Sample.world Sample.album 0 in
  let calls := map call (issued w (snd (listHandler (Some "3") w))) in
  calls = [CallResources (list_options "image" (VString "3"))]
  /\ ~ In (CallResources (list_options "video" (VString "3"))) calls
  /\ status (fst (listHandler (Some "3") w)) = 500.
Proof.
  cbn zeta. split; [reflexivity |]. split; [| reflexivity].
  intros [Heq | []]. discriminate.
Qed.

(** C8 as worded (every present origin outside the allow-list is
    stopped): an [Origin] header that is present but empty is outside
    the list, yet [!origin] holds for it and the request reaches its
    route handler. *)
Lemma empty_origin_reaches_handler :
  let w := Sample.world Sample.album 5 in
  ~ In "" allowedOrigins
  /\ corsOrigin (Some "") = Allow
  /\ serve {| origin := Some ""; route := GetRoot |} w
     = (Handled (json (BMessage "Media uploader backend is running!")), w).
Proof.
  cbn zeta. split; [| split; reflexivity].
  cbn. intros [Heq | [Heq | [Heq | [Heq | []]]]]; discriminate.
Qed.


(** * Further properties of the code *)

(** ** All routes together *)

Section Routes.

Context {St : Type} `{RemoteStore St}.

(** Whatever the store does, a routed request follows one of the paths
    of [outline]. *)
Lemma dispatch_outline (r : Route) (w w' : World St) (resp : Response) :
  dispatch r w = (Handled resp, w') -> outline r (issued w w') resp.
Proof.
  destruct r as [| env [f |] | id | q |]; cbn [dispatch].
  - unfold healthHandler; cbv beta iota. intros [= <- <-].
    rewrite issued_same. constructor.
  - rewrite uploadHandler_run; cbn zeta.
    destruct (uploader_upload _ _ _) as [[e | result] s1]; cbv beta iota;
      intros [= <- <-]; rewrite issued_app; constructor.
  - rewrite uploadHandler_none; cbv beta iota. intros [= <- <-].
    rewrite issued_same. constructor.
  - rewrite deleteHandler_run; cbn zeta.
    destruct (api_resource _ _) as [[e | res] s1]; cbv beta iota.
    + intros [= <- <-]. rewrite issued_app. constructor.
    + destruct (uploader_destroy _ _ _) as [[e | u] s2]; cbv beta iota;
        intros [= <- <-]; rewrite issued_app; constructor.
  - rewrite listHandler_run; cbn zeta.
    destruct (api_resources _ (store w)) as [[e | images] s1]; cbv beta iota.
    + intros [= <- <-]. rewrite issued_app. constructor.
    + destruct (api_resources _ s1) as [[e | videos] s2]; cbv beta iota;
        intros [= <- <-]; rewrite issued_app; constructor.
  - discriminate.
Qed.

(** X1: the origin function lets a request through exactly when the
    [Origin] header is absent, empty, or equal, character for
    character, to one of the four allowed origins. *)
Theorem cors_allows_exactly (origin : option string) :
  corsOrigin origin = Allow
  <-> origin = None
      \/ origin = Some ""
      \/ exists o, origin = Some o /\ In o allowedOrigins.
Proof.
  unfold corsOrigin, not_origin.
  destruct origin as [o |]; [| split; auto].
  destruct (String.eqb_spec o "") as [-> | Hne].
  - split; auto.
  - destruct (includes allowedOrigins o) eqn:Hin; split.
    + intros _. right; right. exists o. split; [reflexivity |].
      unfold includes in Hin. apply existsb_exists in Hin as (x & Hx & Heq).
      apply String.eqb_eq in Heq. subst x. exact Hx.
    + reflexivity.
    + discriminate.
    + intros [Habs | [Habs | (x & Heq & Hx)]]; try congruence.
      injection Heq as <-.
      assert (includes allowedOrigins o = true) as Htrue; [| congruence].
      unfold includes. apply existsb_exists. exists o.
      split; [exact Hx | apply String.eqb_refl].
Qed.

(** X2: a handler answers with status 200, 400 or 500; a body with an
    [error] field never goes with 200; a 400 or 500 body has no field
    but [error] and [details], so nothing of a result goes out with a
    failure; and 400 is the answer to an upload without file part and
    to nothing else. *)
Theorem answers_by_status (r : Route) (w w' : World St) (resp : Response) :
  dispatch r w = (Handled resp, w') ->
  (status resp = 200 \/ status resp = 400 \/ status resp = 500)
  /\ (In "error" (fields (body resp)) -> status resp <> 200)
  /\ (status resp <> 200 ->
      forall k, In k (fields (body resp)) -> k = "error" \/ k = "details")
  /\ (status resp = 400 <-> exists env, r = PostUpload env None).
Proof.
  intros Hd. apply dispatch_outline in Hd.
  destruct Hd;
    try match goal with t : Thrown |- _ => destruct t end;
    cbn; (split; [auto |]); (split; [| split]).
  all: try (intros Hin; exfalso; intuition discriminate).
  all: try (intros _; discriminate).
  all: try (intros Hs; exfalso; apply Hs; reflexivity).
  all: try (intros _ k Hk; intuition congruence).
  all: split; intros Hx; try discriminate; try (eexists; reflexivity);
    destruct Hx as (env0 & Hx); discriminate.
Qed.

(** X3: when the store rejects a call of a request, the answer is a
    500 whose body is [{ error: err.message }] for an upload and for a
    listing and [{ error: "Failed to delete file from Cloudinary",
    details: error.message }] for a delete, a property being left out
    when the rejection has no [message]; a message it has is carried
    unchanged. *)
Theorem rejection_answer (r : Route) (w w' : World St) (resp : Response)
    (entry : Entry) (err : Thrown) :
  dispatch r w = (Handled resp, w') ->
  In entry (issued w w') ->
  rejected entry = Some err ->
  status resp = 500
  /\ body resp
     = match r with
       | DeleteFiles _ =>
           error_details_body "Failed to delete file from Cloudinary"
             (message_of err)
       | _ => error_body (message_of err)
       end
  /\ (forall m, message_of err = Some m -> carries (body resp) m).
Proof.
  intros Hd. apply dispatch_outline in Hd.
  destruct Hd; cbn; intros Hin Hrej;
    repeat (destruct Hin as [<- | Hin];
            [cbn in Hrej; try discriminate; injection Hrej as -> |]);
    try contradiction.
  all: split; [reflexivity |]; split; [reflexivity |].
  all: intros m Hm; rewrite Hm; cbn.
  all: first [ exists "error"; cbn; auto; fail
             | exists "details"; cbn; auto ].
Qed.

(** X4: a request makes at most two calls to the store, and every call
    but the last one resolved: after a rejection nothing more is
    asked of the store, not even the same call again. *)
Theorem rejection_ends_request (r : Route) (w w' : World St)
    (resp : Response) :
  dispatch r w = (Handled resp, w') ->
  List.length (issued w w') <= 2
  /\ Forall (fun entry => rejected entry = None) (removelast (issued w w')).
Proof.
  intros Hd. apply dispatch_outline in Hd.
  destruct Hd; cbn; split; try lia; repeat constructor.
Qed.

(** X5: every call of a request is one its route is entitled to: the
    health check and an upload without file make none, an upload only
    uploads the posted file with the fixed options, a delete only looks
    up and destroys the identifier of its path, a listing only lists. *)
Theorem calls_stay_in_route (r : Route) (w w' : World St) (resp : Response)
    (entry : Entry) :
  dispatch r w = (Handled resp, w') ->
  In entry (issued w w') ->
  permitted r (call entry).
Proof.
  intros Hd. apply dispatch_outline in Hd.
  destruct Hd; cbn; intros Hin;
    repeat (destruct Hin as [<- | Hin]; [cbn; auto |]);
    contradiction.
Qed.

End Routes.

(** ** Strings *)

Section Strings.

Lemma append_length (a b : string) :
  String.length (a ++ b) = String.length a + String.length b.
Proof. induction a as [| c a IH]; cbn; [| rewrite IH]; reflexivity. Qed.

Lemma append_assoc (a b c : string) : (a ++ b) ++ c = a ++ (b ++ c).
Proof. induction a as [| x a IH]; cbn; [| rewrite IH]; reflexivity. Qed.

Lemma append_cancel_r (a b t : string) : a ++ t = b ++ t -> a = b.
Proof.
  revert b; induction a as [| x a IH]; intros [| y b] Heq; cbn in Heq.
  - reflexivity.
  - apply (f_equal String.length) in Heq. cbn in Heq.
    rewrite append_length in Heq. lia.
  - apply (f_equal String.length) in Heq. cbn in Heq.
    rewrite append_length in Heq. lia.
  - injection Heq as -> Heq. f_equal. auto.
Qed.

Lemma all_chars_app (p : ascii -> bool) (a b : string) :
  all_chars p (a ++ b) = all_chars p a && all_chars p b.
Proof.
  induction a as [| c a IH]; cbn; [reflexivity |].
  rewrite IH. apply andb_assoc.
Qed.

(** Two texts that end in a separator and a tail free of it are equal
    only if heads and tails are. *)
Lemma split_at_last (sep : ascii) (p1 p2 s1 s2 : string) :
  all_chars (fun c => negb (Ascii.eqb c sep)) s1 = true ->
  all_chars (fun c => negb (Ascii.eqb c sep)) s2 = true ->
  p1 ++ String sep s1 = p2 ++ String sep s2 ->
  p1 = p2 /\ s1 = s2.
Proof.
  intros H1 H2.
  assert (forall a b, all_chars (fun c => negb (Ascii.eqb c sep))
                        (a ++ String sep b) = false) as Hno.
  { intros a b. rewrite all_chars_app. cbn. rewrite Ascii.eqb_refl.
    apply andb_false_r. }
  revert p2; induction p1 as [| x p1 IH]; intros [| y p2] Heq; cbn in Heq.
  - injection Heq as ->. auto.
  - injection Heq as <- ->. rewrite Hno in H1. discriminate.
  - injection Heq as -> <-. rewrite Hno in H2. discriminate.
  - injection Heq as -> Heq. destruct (IH _ Heq) as [-> ->]. auto.
Qed.

(** Two texts that begin with digits and a hyphen are equal only if the
    digits and the rests are. *)
Lemma split_at_hyphen (d1 d2 s1 s2 : string) :
  all_chars is_digit d1 = true ->
  all_chars is_digit d2 = true ->
  d1 ++ String "-" s1 = d2 ++ String "-" s2 ->
  d1 = d2 /\ s1 = s2.
Proof.
  revert d2; induction d1 as [| x d1 IH]; intros [| y d2] H1 H2 Heq;
    cbn in *.
  - injection Heq as ->. auto.
  - injection Heq as <- _. discriminate.
  - injection Heq as -> _. discriminate.
  - injection Heq as -> Heq.
    apply andb_true_iff in H1 as [_ H1]. apply andb_true_iff in H2 as [_ H2].
    destruct (IH _ H1 H2 Heq) as [-> ->]. auto.
Qed.

Lemma substring_length (n m : nat) (s : string) :
  String.length (substring n m s) = Nat.min m (String.length s - n).
Proof.
  revert n m; induction s as [| c s IH]; intros [| n] [| m]; cbn;
    try reflexivity; rewrite IH; cbn; try rewrite Nat.sub_0_r; lia.
Qed.

Lemma toString_inj (n m : N) :
  JsNumber.toString n = JsNumber.toString m -> n = m.
Proof.
  unfold JsNumber.toString. intros Heq.
  apply (f_equal NilEmpty.uint_of_string) in Heq.
  rewrite !NilEmpty.usu in Heq. injection Heq as Heq.
  apply DecimalN.Unsigned.to_uint_inj. exact Heq.
Qed.

End Strings.

(** ** The generated identifier *)

(** X6: two generated identifiers are equal only if they were made in
    the same millisecond and with the same random suffix, so uploads
    that read different values of [Date.now()] never ask for the same
    [public_id]. *)
Theorem generated_id_fixes_timestamp (env1 env2 : Env) :
  generated_id env1 = generated_id env2 ->
  now env1 = now env2
  /\ js_substring (random36 env1) 2 8 = js_substring (random36 env2) 2 8.
Proof.
  unfold generated_id. intros Heq.
  change (?d ++ "-" ++ ?s) with (d ++ String "-" s) in Heq.
  apply split_at_hyphen in Heq as [Hd Hs]; try apply toString_digits.
  split; [apply toString_inj; exact Hd | exact Hs].
Qed.

(** X7: the random suffix of a generated identifier has
    [min 6 (length - 2)] characters, where [length] is that of the
    base-36 rendering of the draw; and the identifier matches
    [<digits>-<6 alphanumeric chars>] exactly when the rendering has
    eight characters or more and the six from position 2 on are letters
    or digits. *)
Theorem generated_id_pattern_iff (env : Env) :
  let suffix := js_substring (random36 env) 2 8 in
  String.length suffix = Nat.min 6 (String.length (random36 env) - 2)
  /\ (id_pattern (generated_id env) = true
      <-> 8 <= String.length (random36 env)
          /\ all_chars is_alnum suffix = true).
Proof.
  cbn zeta.
  assert (String.length (js_substring (random36 env) 2 8)
          = Nat.min 6 (String.length (random36 env) - 2)) as Hlen
    by apply substring_length.
  split; [exact Hlen |].
  unfold generated_id, id_pattern.
  change (?d ++ "-" ++ ?s) with (d ++ String "-" s).
  rewrite skip_digits_app by apply toString_digits.
  destruct (toString_nonempty (now env)) as (c & r & Hts).
  pose proof (toString_digits (now env)) as Hd.
  rewrite Hts in *. cbn in Hd |- *.
  apply andb_true_iff in Hd as [Hc _]. rewrite Hc. cbn.
  rewrite andb_true_iff, Nat.eqb_eq, Hlen. intuition lia.
Qed.

(** ** The payload as a data URI *)

Section Payload.

(** Lists, three elements at a time. *)
Lemma list_ind3 {A : Type} (P : list A -> Prop) :
  P [] ->
  (forall a, P [a]) ->
  (forall a b, P [a; b]) ->
  (forall a b c rest, P rest -> P (a :: b :: c :: rest)) ->
  forall l, P l.
Proof.
  intros H0 H1 H2 H3.
  assert (forall l, P l /\ (forall a, P (a :: l))
                    /\ (forall a b, P (a :: b :: l))) as Hall.
  { induction l as [| x l (IH0 & IH1 & IH2)].
    - auto.
    - repeat split; auto. }
  intros l. apply Hall.
Qed.

Lemma base64_digit_char (n : N) : is_base64_char (base64_digit n) = true.
Proof.
  unfold base64_digit.
  assert (N.to_nat (n mod 64) < 64) as Hk.
  { pose proof (N.mod_lt n 64). lia. }
  revert Hk. generalize (N.to_nat (n mod 64)) as k. intros k Hk.
  do 64 (destruct k as [| k]; [reflexivity |]). lia.
Qed.

Lemma base64_digit_not_pad (n : N) : Ascii.eqb (base64_digit n) "=" = false.
Proof.
  unfold base64_digit.
  assert (N.to_nat (n mod 64) < 64) as Hk.
  { pose proof (N.mod_lt n 64). lia. }
  revert Hk. generalize (N.to_nat (n mod 64)) as k. intros k Hk.
  do 64 (destruct k as [| k]; [reflexivity |]). lia.
Qed.

Lemma base64_value_digit (n : N) :
  base64_value (base64_digit n) = (n mod 64)%N.
Proof.
  unfold base64_digit.
  rewrite <- (N2Nat.id (n mod 64)) at 2.
  assert (N.to_nat (n mod 64) < 64) as Hk.
  { pose proof (N.mod_lt n 64). lia. }
  revert Hk. generalize (N.to_nat (n mod 64)) as k. intros k Hk.
  do 64 (destruct k as [| k]; [reflexivity |]). lia.
Qed.

Lemma byte_of_to_N (b : byte) : byte_of_N (Byte.to_N b) = b.
Proof. unfold byte_of_N. rewrite Byte.of_to_N. reflexivity. Qed.

Lemma base64_length (bs : list byte) :
  String.length (base64 bs) = 4 * ((List.length bs + 2) / 3).
Proof.
  induction bs as [| a | a b | a b c rest IH] using list_ind3;
    try reflexivity.
  cbn [base64 String.length List.length]. rewrite IH.
  replace (S (S (S (List.length rest))) + 2)
    with (List.length rest + 2 + 1 * 3) by lia.
  rewrite Nat.div_add by lia. lia.
Qed.

Lemma base64_chars (bs : list byte) :
  all_chars is_base64_char (base64 bs) = true.
Proof.
  induction bs as [| a | a b | a b c rest IH] using list_ind3;
    cbn [base64 all_chars]; rewrite ?base64_digit_char, ?IH; reflexivity.
Qed.

End Payload.

Section Roundtrip.

Lemma regroup (n : N) :
  (n < 16777216)%N ->
  ((n / 262144) mod 64 * 262144 + (n / 4096) mod 64 * 4096
   + (n / 64) mod 64 * 64 + n mod 64 = n)%N.
Proof.
  intros Hn.
  replace (n / 4096)%N with (n / 64 / 64)%N
    by (rewrite N.Div0.div_div; reflexivity).
  replace (n / 262144)%N with (n / 64 / 64 / 64)%N
    by (rewrite !N.Div0.div_div; reflexivity).
  pose proof (N.div_mod n 64). pose proof (N.div_mod (n / 64) 64).
  pose proof (N.div_mod (n / 64 / 64) 64).
  pose proof (N.mod_lt n 64). pose proof (N.mod_lt (n / 64) 64).
  pose proof (N.mod_lt (n / 64 / 64) 64).
  assert (n / 64 / 64 / 64 < 64)%N as Hq.
  { rewrite !N.Div0.div_div. apply N.Div0.div_lt_upper_bound. lia. }
  rewrite (N.mod_small (n / 64 / 64 / 64)) by assumption.
  lia.
Qed.

Lemma triple (A B C : N) :
  (A <= 255)%N -> (B <= 255)%N -> (C <= 255)%N ->
  let n := (A * 65536 + B * 256 + C)%N in
  (n / 65536 = A /\ (n / 256) mod 256 = B /\ n mod 256 = C
   /\ n < 16777216)%N.
Proof.
  intros HA HB HC n. subst n.
  assert ((A * 65536 + B * 256 + C) mod 256 = C)%N as H3.
  { replace (A * 65536 + B * 256 + C)%N
      with (C + (A * 256 + B) * 256)%N by lia.
    rewrite N.Div0.mod_add. apply N.mod_small. lia. }
  assert ((A * 65536 + B * 256 + C) / 256 = A * 256 + B)%N as H2.
  { replace (A * 65536 + B * 256 + C)%N
      with (C + (A * 256 + B) * 256)%N by lia.
    rewrite N.div_add by lia. rewrite N.div_small by lia. lia. }
  assert ((A * 65536 + B * 256 + C) / 65536 = A)%N as H1.
  { replace (A * 65536 + B * 256 + C)%N
      with ((B * 256 + C) + A * 65536)%N by lia.
    rewrite N.div_add by lia. rewrite N.div_small by lia. lia. }
  rewrite H1, H2, H3. repeat split; try lia.
  replace (A * 256 + B)%N with (B + A * 256)%N by lia.
  rewrite N.Div0.mod_add. apply N.mod_small. lia.
Qed.

Lemma multiple_of_64 (n k : N) :
  (n = k * 64)%N -> (n mod 64 = 0)%N.
Proof.
  intros ->. replace (k * 64)%N with (0 + k * 64)%N by lia.
  rewrite N.Div0.mod_add. reflexivity.
Qed.

(** Decoding what [base64] wrote gives the bytes back. *)
Lemma unbase64_base64 (bs : list byte) : unbase64 (base64 bs) = bs.
Proof.
  induction bs as [| a | a b | a b c rest IH] using list_ind3.
  - reflexivity.
  - cbn [base64 unbase64]; cbv zeta.
    rewrite Ascii.eqb_refl. change (base64_value "=") with 0%N.
    rewrite !base64_value_digit.
    pose proof (Byte.to_N_bounded a) as Ha.
    destruct (triple (Byte.to_N a) 0 0 Ha) as (H1 & _ & _ & Hlt); try lia.
    cbv zeta in H1, Hlt. rewrite !N.mul_0_l, !N.add_0_r in *.
    pose proof (regroup _ Hlt) as Hre.
    set (n := (Byte.to_N a * 65536)%N) in *.
    assert (n mod 64 = 0)%N as Hm
        by (apply (multiple_of_64 _ (Byte.to_N a * 1024)); subst n; lia).
    assert ((n / 64) mod 64 = 0)%N as Hm2.
    { apply (multiple_of_64 _ (Byte.to_N a * 16)).
      subst n. replace (Byte.to_N a * 65536)%N
        with (Byte.to_N a * 1024 * 64)%N by lia.
      rewrite N.div_mul by lia. lia. }
    rewrite Hm, Hm2 in Hre. rewrite !N.mul_0_l, !N.add_0_r in Hre.
    rewrite Hre, H1, byte_of_to_N. reflexivity.
  - cbn [base64 unbase64]; cbv zeta.
    rewrite base64_digit_not_pad, Ascii.eqb_refl.
    change (base64_value "=") with 0%N.
    rewrite !base64_value_digit.
    pose proof (Byte.to_N_bounded a) as Ha.
    pose proof (Byte.to_N_bounded b) as Hb.
    destruct (triple (Byte.to_N a) (Byte.to_N b) 0 Ha Hb)
      as (H1 & H2 & _ & Hlt); try lia.
    cbv zeta in H1, H2, Hlt. rewrite !N.add_0_r in *.
    pose proof (regroup _ Hlt) as Hre.
    set (n := (Byte.to_N a * 65536 + Byte.to_N b * 256)%N) in *.
    assert (n mod 64 = 0)%N as Hm
        by (apply (multiple_of_64 _ (Byte.to_N a * 1024 + Byte.to_N b * 4));
            subst n; lia).
    rewrite Hm, N.add_0_r in Hre.
    rewrite Hre, H1, H2, !byte_of_to_N. reflexivity.
  - cbn [base64 unbase64]; cbv zeta.
    rewrite !base64_digit_not_pad, !base64_value_digit.
    pose proof (Byte.to_N_bounded a) as Ha.
    pose proof (Byte.to_N_bounded b) as Hb.
    pose proof (Byte.to_N_bounded c) as Hc.
    destruct (triple (Byte.to_N a) (Byte.to_N b) (Byte.to_N c) Ha Hb Hc)
      as (H1 & H2 & H3 & Hlt).
    cbv zeta in H1, H2, H3, Hlt.
    rewrite (regroup _ Hlt), H1, H2, H3, !byte_of_to_N, IH. reflexivity.
Qed.

End Roundtrip.

Section Upload.

Context {St : Type} `{RemoteStore St}.

(** X8: a file part with no bytes is a file part all the same: the
    handler does not answer 400 but uploads the data URI that ends right
    after [;base64,], in a single call. *)
Theorem empty_file_is_uploaded (env : Env) (f : File.t) (w : World St) :
  File.buffer f = [] ->
  dataURI f = "data:" ++ File.mimetype f ++ ";base64,"
  /\ map call (issued w (snd (uploadHandler env (Some f) w)))
     = [CallUpload ("data:" ++ File.mimetype f ++ ";base64,")
          (upload_options env)]
  /\ status (fst (uploadHandler env (Some f) w)) <> 400.
Proof.
  intros Hbuf.
  assert (dataURI f = "data:" ++ File.mimetype f ++ ";base64,") as Huri.
  { unfold dataURI. rewrite Hbuf. reflexivity. }
  split; [exact Huri |].
  rewrite uploadHandler_run; cbn zeta. rewrite Huri.
  destruct (uploader_upload _ _ _) as [[e | result] s1]; cbn;
    rewrite issued_app; split; try reflexivity; discriminate.
Qed.

End Upload.

(** X9: the data URI is [data:], the declared type, [;base64,] and then
    four characters for every three bytes of the payload, the last group
    padded: [13 + |type| + 4 * ceil(n / 3)] characters in all, those of
    the payload being letters, digits, [+], [/] or [=]. *)
Theorem dataURI_shape (f : File.t) :
  dataURI f
  = "data:" ++ File.mimetype f ++ ";base64," ++ base64 (File.buffer f)
  /\ String.length (base64 (File.buffer f))
     = 4 * ((List.length (File.buffer f) + 2) / 3)
  /\ String.length (dataURI f)
     = 13 + String.length (File.mimetype f)
       + 4 * ((List.length (File.buffer f) + 2) / 3)
  /\ all_chars is_base64_char (base64 (File.buffer f)) = true.
Proof.
  split; [reflexivity |]. split; [apply base64_length |].
  split; [| apply base64_chars].
  unfold dataURI; cbv zeta.
  rewrite !append_length, base64_length. cbn. lia.
Qed.

(** X10: the data URI determines the file: two files with the same
    data URI have the same bytes and the same declared type, so nothing
    of the payload is lost on the way to the store. *)
Theorem dataURI_injective (f1 f2 : File.t) :
  dataURI f1 = dataURI f2 -> f1 = f2.
Proof.
  assert (forall f, dataURI f
                    = ("data:" ++ File.mimetype f ++ ";base64")
                      ++ String "," (base64 (File.buffer f))) as Hsplit.
  { intros f. unfold dataURI; cbv zeta. cbn [append].
    do 5 f_equal. rewrite append_assoc. reflexivity. }
  assert (forall bs, all_chars (fun c => negb (Ascii.eqb c ","))
                       (base64 bs) = true) as Hcomma.
  { intros bs. apply (all_chars_impl is_base64_char); [| apply base64_chars].
    intros c Hc. destruct (Ascii.eqb_spec c ",") as [-> | _];
      [discriminate Hc | reflexivity]. }
  intros Heq. rewrite !Hsplit in Heq.
  apply split_at_last in Heq as [Hp Hb]; try apply Hcomma.
  cbn [append] in Hp. injection Hp as Hp. apply append_cancel_r in Hp.
  apply (f_equal unbase64) in Hb. rewrite !unbase64_base64 in Hb.
  destruct f1, f2; cbn in *. subst. reflexivity.
Qed.

Section Listings.

Context {St : Type} `{RemoteStore St}.

(** X11: when both queries resolve without any resource, the answer is
    not an error but the empty listing: no files, count 0, size 0. *)
Theorem empty_listing (query : option string) (w : World St) (s1 s2 : St) :
  api_resources (list_options "image" (max_results_of query)) (store w)
  = (inr {| Listing.resources := [] |}, s1) ->
  api_resources (list_options "video" (max_results_of query)) s1
  = (inr {| Listing.resources := [] |}, s2) ->
  fst (listHandler query w) = json (BFiles [] 0 (Finite 0)).
Proof.
  intros Himg Hvid. rewrite listHandler_run; cbn zeta.
  rewrite Himg, Hvid. reflexivity.
Qed.

End Listings.

Lemma exact_sum_perm (l l' : list Asset.t) :
  Permutation l l' -> exact_sum l = exact_sum l'.
Proof.
  induction 1 as [| x l l' _ IH | x y l | l l' l'' _ IH1 _ IH2]; cbn.
  - reflexivity.
  - rewrite IH. reflexivity.
  - destruct (Asset.size x), (Asset.size y), (exact_sum l);
      try reflexivity. f_equal. lia.
  - congruence.
Qed.

(** X12: as long as the sizes add up to [2^53] at most, the total does
    not depend on the order of the entries: files listed in another
    order have the same [totalSize]. *)
Theorem total_size_order_independent (files files' : list Asset.t) :
  Permutation files files' ->
  safe_total files ->
  safe_total files' /\ total_size files' = total_size files.
Proof.
  intros Hperm (t & Hsum & Hle).
  assert (exact_sum files' = Finite t) as Hsum'
    by (rewrite <- (exact_sum_perm _ _ Hperm); exact Hsum).
  split; [exists t; auto |].
  rewrite (total_size_exact files t), (total_size_exact files' t);
    trivial.
Qed.

Section Deletes.

Context {St : Type} `{RemoteStore St}.

(** X13: a delete reports success only after the store resolved both
    the lookup and the destroy of that identifier, the destroy with the
    kind the lookup gave; the store is then as the destroy left it. *)
Theorem delete_success_means_destroyed (id : string) (w : World St) :
  status (fst (deleteHandler id w)) = 200 ->
  exists res s1 s2,
    api_resource id (store w) = (inr res, s1)
    /\ uploader_destroy id
         {| DestroyOptions.resource_type := Resource.resource_type res |} s1
       = (inr tt, s2)
    /\ store (snd (deleteHandler id w)) = s2
    /\ body (fst (deleteHandler id w))
       = BMessage "File deleted successfully from Cloudinary".
Proof.
  rewrite deleteHandler_run; cbn zeta.
  destruct (api_resource _ _) as [[e | res] s1] eqn:Hlook;
    [cbn; discriminate |].
  destruct (uploader_destroy _ _ _) as [[e | []] s2] eqn:Hdes;
    [cbn; discriminate |].
  intros _. exists res, s1, s2. cbn. auto.
Qed.

End Deletes.

(** ** The further properties on the reference store *)

(** A listing on a store out of quota: a 500 whose body has no field. *)
Lemma answers_by_status_witness :
  let w := Sample.world Sample.album 0 in
  let resp := fst (listHandler None w) in
  let w' := snd (listHandler None w) in
  dispatch (GetFiles None) w = (Handled resp, w')
  /\ (status resp = 200 \/ status resp = 400 \/ status resp = 500)
  /\ (In "error" (fields (body resp)) -> status resp <> 200)
  /\ (status resp <> 200 ->
      forall k, In k (fields (body resp)) -> k = "error" \/ k = "details")
  /\ (status resp = 400 <-> exists env, GetFiles None = PostUpload env None).
Proof.
  cbn zeta.
  assert (dispatch (GetFiles None) (Sample.world Sample.album 0)
          = (Handled (fst (listHandler None (Sample.world Sample.album 0))),
             snd (listHandler None (Sample.world Sample.album 0))))
    as Hd by reflexivity.
  split; [exact Hd |].
  exact (answers_by_status _ _ _ _ Hd).
Defined.

(** A destroy rejected by the uploader, after a lookup that resolved:
    the message goes out as [details]. *)
Lemma rejection_answer_witness :
  let w := Sample.world Sample.album 1 in
  let id := "wedding-memories/a" in
  let resp := fst (deleteHandler id w) in
  let w' := snd (deleteHandler id w) in
  let entry :=
    {| call := CallDestroy id {| DestroyOptions.resource_type := "image" |};
       rejected := Some (Plain Sample.quota_error) |} in
  dispatch (DeleteFiles id) w = (Handled resp, w')
  /\ In entry (issued w w')
  /\ status resp = 500
  /\ body resp
     = BErrorDetails "Failed to delete file from Cloudinary"
         "Rate Limit Exceeded"
  /\ carries (body resp) "Rate Limit Exceeded".
Proof.
  cbn zeta.
  assert (dispatch (DeleteFiles "wedding-memories/a")
            (Sample.world Sample.album 1)
          = (Handled (fst (deleteHandler "wedding-memories/a"
                             (Sample.world Sample.album 1))),
             snd (deleteHandler "wedding-memories/a"
                    (Sample.world Sample.album 1)))) as Hd by reflexivity.
  assert (In {| call := CallDestroy "wedding-memories/a"
                          {| DestroyOptions.resource_type := "image" |};
                rejected := Some (Plain Sample.quota_error) |}
             (issued (Sample.world Sample.album 1)
                (snd (deleteHandler "wedding-memories/a"
                        (Sample.world Sample.album 1)))))
    as Hin by (right; left; reflexivity).
  split; [exact Hd |]. split; [exact Hin |].
  destruct (rejection_answer _ _ _ _ _ _ Hd Hin eq_refl) as (Hs & Hb & Hc).
  split; [exact Hs |]. split; [exact Hb |].
  exact (Hc "Rate Limit Exceeded" eq_refl).
Defined.

(** A listing on a store with quota for one call: two calls, the first
    resolved. *)
Lemma rejection_ends_request_witness :
  let w := Sample.world Sample.album 1 in
  let resp := fst (listHandler None w) in
  let w' := snd (listHandler None w) in
  dispatch (GetFiles None) w = (Handled resp, w')
  /\ List.length (issued w w') <= 2
  /\ Forall (fun entry => rejected entry = None) (removelast (issued w w')).
Proof.
  cbn zeta.
  assert (dispatch (GetFiles None) (Sample.world Sample.album 1)
          = (Handled (fst (listHandler None (Sample.world Sample.album 1))),
             snd (listHandler None (Sample.world Sample.album 1))))
    as Hd by reflexivity.
  split; [exact Hd |].
  exact (rejection_ends_request _ _ _ _ Hd).
Defined.

(** A delete of a stored image: its destroy is a call of the route. *)
Lemma calls_stay_in_route_witness :
  let w := Sample.world Sample.album 5 in
  let id := "wedding-memories/a" in
  let resp := fst (deleteHandler id w) in
  let w' := snd (deleteHandler id w) in
  let entry :=
    {| call := CallDestroy id {| DestroyOptions.resource_type := "image" |};
       rejected := None |} in
  dispatch (DeleteFiles id) w = (Handled resp, w')
  /\ In entry (issued w w')
  /\ permitted (DeleteFiles id) (call entry).
Proof.
  cbn zeta.
  assert (dispatch (DeleteFiles "wedding-memories/a")
            (Sample.world Sample.album 5)
          = (Handled (fst (deleteHandler "wedding-memories/a"
                             (Sample.world Sample.album 5))),
             snd (deleteHandler "wedding-memories/a"
                    (Sample.world Sample.album 5)))) as Hd by reflexivity.
  assert (In {| call := CallDestroy "wedding-memories/a"
                          {| DestroyOptions.resource_type := "image" |};
                rejected := None |}
             (issued (Sample.world Sample.album 5)
                (snd (deleteHandler "wedding-memories/a"
                        (Sample.world Sample.album 5)))))
    as Hin by (right; left; reflexivity).
  split; [exact Hd |]. split; [exact Hin |].
  exact (calls_stay_in_route _ _ _ _ _ Hd Hin).
Defined.

(** Two draws with the same six characters after the point, in the same
    millisecond. *)
Lemma generated_id_fixes_timestamp_witness :
  let env2 := {| now := 1700000000000; random36 := "0.4fzyo8zzzzz" |} in
  generated_id Sample.env = generated_id env2
  /\ now Sample.env = now env2
  /\ js_substring (random36 Sample.env) 2 8 = js_substring (random36 env2) 2 8.
Proof.
  cbn zeta.
  assert (generated_id Sample.env
          = generated_id
              {| now := 1700000000000; random36 := "0.4fzyo8zzzzz" |})
    as Heq by reflexivity.
  split; [exact Heq |].
  exact (generated_id_fixes_timestamp _ _ Heq).
Defined.

(** A file part of type [text/plain] with no bytes. *)
Lemma empty_file_is_uploaded_witness :
  let f := {| File.buffer := []; File.mimetype := "text/plain" |} in
  let w := Sample.world [] 5 in
  File.buffer f = []
  /\ dataURI f = "data:text/plain;base64,"
  /\ map call (issued w (snd (uploadHandler Sample.env (Some f) w)))
     = [CallUpload "data:text/plain;base64," (upload_options Sample.env)]
  /\ status (fst (uploadHandler Sample.env (Some f) w)) <> 400.
Proof.
  cbn zeta. split; [reflexivity |].
  exact (empty_file_is_uploaded Sample.env
           {| File.buffer := []; File.mimetype := "text/plain" |}
           (Sample.world [] 5) eq_refl).
Defined.

(** The sample JPEG, with its type spelt in two pieces. *)
Lemma dataURI_injective_witness :
  let f := {| File.buffer := File.buffer Sample.jpeg;
              File.mimetype := "image/" ++ "jpeg" |} in
  dataURI Sample.jpeg = dataURI f /\ Sample.jpeg = f.
Proof.
  cbn zeta.
  assert (dataURI Sample.jpeg
          = dataURI {| File.buffer := File.buffer Sample.jpeg;
                       File.mimetype := "image/" ++ "jpeg" |})
    as Heq by reflexivity.
  split; [exact Heq |].
  exact (dataURI_injective _ _ Heq).
Defined.

(** A listing of the store with nothing in it. *)
Lemma empty_listing_witness :
  let w := Sample.world [] 5 in
  api_resources (list_options "image" (max_results_of None)) (store w)
  = (inr {| Listing.resources := [] |},
     {| MemStore.assets := []; MemStore.quota := 4 |})
  /\ api_resources (list_options "video" (max_results_of None))
       {| MemStore.assets := []; MemStore.quota := 4 |}
     = (inr {| Listing.resources := [] |},
        {| MemStore.assets := []; MemStore.quota := 3 |})
  /\ fst (listHandler None w) = json (BFiles [] 0 (Finite 0)).
Proof.
  cbn zeta.
  assert (api_resources (list_options "image" (max_results_of None))
            (store (Sample.world [] 5))
          = (inr {| Listing.resources := [] |},
             {| MemStore.assets := []; MemStore.quota := 4 |}))
    as Himg by reflexivity.
  assert (api_resources (list_options "video" (max_results_of None))
            {| MemStore.assets := []; MemStore.quota := 4 |}
          = (inr {| Listing.resources := [] |},
             {| MemStore.assets := []; MemStore.quota := 3 |}))
    as Hvid by reflexivity.
  split; [exact Himg |]. split; [exact Hvid |].
  exact (empty_listing None (Sample.world [] 5) _ _ Himg Hvid).
Defined.

(** The album, listed forwards and backwards. *)
Lemma total_size_order_independent_witness :
  let files := map project Sample.album in
  let files' := List.rev files in
  Permutation files files'
  /\ safe_total files
  /\ safe_total files'
  /\ total_size files' = total_size files.
Proof.
  cbn zeta.
  assert (Permutation (map project Sample.album)
            (List.rev (map project Sample.album))) as Hperm
    by apply Permutation_rev.
  assert (safe_total (map project Sample.album)) as Hsafe.
  { exists 3345%N. split; [reflexivity | unfold two53; lia]. }
  split; [exact Hperm |]. split; [exact Hsafe |].
  exact (total_size_order_independent _ _ Hperm Hsafe).
Defined.

(** A delete of a stored image, answered with 200. *)
Lemma delete_success_means_destroyed_witness :
  let w := Sample.world Sample.album 5 in
  let id := "wedding-memories/a" in
  status (fst (deleteHandler id w)) = 200
  /\ exists res s1 s2,
       api_resource id (store w) = (inr res, s1)
       /\ uploader_destroy id
            {| DestroyOptions.resource_type := Resource.resource_type res |}
            s1
          = (inr tt, s2)
       /\ store (snd (deleteHandler id w)) = s2
       /\ body (fst (deleteHandler id w))
          = BMessage "File deleted successfully from Cloudinary".
Proof.
  cbn zeta.
  assert (status (fst (deleteHandler "wedding-memories/a"
                         (Sample.world Sample.album 5))) = 200)
    as Hok by reflexivity.
  split; [exact Hok |].
  exact (delete_success_means_destroyed _ _ Hok).
Defined.
